(** * Final-Rag: the answer pipeline and the ingestion pipeline

    A shallow embedding of [backend/rag-service.js] ([getAnswer],
    [isErrorResponse], [processIfNew], [processPDFs]) and of the two
    mongoose models of [backend/server.js] ([Chat], [ProcessedPDF]).

    Conventions of the embedding.
    - A JavaScript string is a [string] (a sequence of bytes).  [trim] and
      [toLowerCase] act on the ASCII range; bytes above 127 are left alone.
    - A JavaScript integer number is a [Z].  The one place where the code
      divides ([processIfNew], the page estimate) is carried out over [Q],
      with every arithmetic result passed through a rounding function [fl].
    - [await]ed calls are sequenced in a monad that threads the document
      store, the vector index and a trace of the calls made to the
      retrieval and generation services, and that can throw.
    - What an external collaborator answers (mongoose, Pinecone, the
      language model, the file system, [uuidv4], the clock) is read from an
      environment record, one per call of [getAnswer] or [processIfNew]. *)

From Stdlib Require Import String Ascii List ZArith QArith Qround Lia Bool.
From Stdlib Require Import Sorted Permutation.
Import ListNotations.

Local Open Scope string_scope.
Local Open Scope Z_scope.

(* ================================================================== *)
(** ** JavaScript strings *)

Module JsString.

(** The ASCII members of the ECMAScript WhiteSpace and LineTerminator
    classes, the characters [String.prototype.trim] removes. *)
Definition isWhiteSpace (c : ascii) : bool :=
  match N_of_ascii c with
  | 9%N | 10%N | 11%N | 12%N | 13%N | 32%N => true
  | _ => false
  end.

Definition lowerChar (c : ascii) : ascii :=
  let n := N_of_ascii c in
  if ((65 <=? n) && (n <=? 90))%N then ascii_of_N (n + 32) else c.

Fixpoint toLowerCase (s : string) : string :=
  match s with
  | EmptyString => EmptyString
  | String c r => String (lowerChar c) (toLowerCase r)
  end.

Fixpoint trimStart (s : string) : string :=
  match s with
  | EmptyString => EmptyString
  | String c r => if isWhiteSpace c then trimStart r else s
  end.

Fixpoint trimEnd (s : string) : string :=
  match s with
  | EmptyString => EmptyString
  | String c r =>
      match trimEnd r with
      | EmptyString => if isWhiteSpace c then EmptyString else String c EmptyString
      | r' => String c r'
      end
  end.

Definition trim (s : string) : string := trimEnd (trimStart s).

(** No white space in front. *)
Definition startsClean (s : string) : Prop :=
  match s with
  | EmptyString => True
  | String c _ => isWhiteSpace c = false
  end.

(** [s.includes(sub)] *)
Fixpoint includes (s sub : string) : bool :=
  prefix sub s ||
  match s with
  | EmptyString => false
  | String _ r => includes r sub
  end.

(** [parts.join(sep)] *)
Definition join (sep : string) (parts : list string) : string :=
  String.concat sep parts.

(** Truthiness of a string: only the empty string is falsy. *)
Definition truthy (s : string) : bool :=
  match s with
  | EmptyString => false
  | String _ _ => true
  end.

End JsString.

(* ================================================================== *)
(** ** JavaScript arrays *)

Module JsArray.

Section Sort.
Context {A : Type}.
(** The comparator of [Array.prototype.sort]: negative when the first
    argument goes first. *)
Variable compareFn : A -> A -> Z.

Fixpoint insert (x : A) (l : list A) : list A :=
  match l with
  | [] => [x]
  | y :: r => if compareFn x y <=? 0 then x :: l else y :: insert x r
  end.

(** [arr.sort(compareFn)]; the sort is stable, as ECMAScript requires. *)
Definition sort (l : list A) : list A := fold_right insert [] l.

(** [x] may stand before [y]. *)
Definition inOrder (x y : A) : Prop := compareFn x y <= 0.
End Sort.

(** [[...new Set(xs)]]: a Set iterates in insertion order, so the first
    occurrence of each value is the one kept. *)
Definition setAdd (seen : list Z) (x : Z) : list Z :=
  if existsb (Z.eqb x) seen then seen else seen ++ [x].

Definition fromSet (xs : list Z) : list Z := fold_left setAdd xs [].

(** [arr.map((x, index) => f x index)], counting from [index]. *)
Fixpoint mapIndexFrom {A B : Type} (f : A -> Z -> B) (index : Z) (l : list A)
  : list B :=
  match l with
  | [] => []
  | x :: r => f x index :: mapIndexFrom f (index + 1) r
  end.

Definition mapIndex {A B : Type} (f : A -> Z -> B) (l : list A) : list B :=
  mapIndexFrom f 0 l.

End JsArray.

(* ================================================================== *)
(** ** Data model *)

(** [ChatSchema] of server.js. *)
Module Chat.
Record t : Type := mk {
  sessionId : string;
  messageId : string;
  question : string;
  answer : string;
  pageNumbers : list Z;
  rating : option Z;
  success : bool;
  timestamp : Z
}.

Definition withRating (c : t) (r : Z) : t :=
  mk (sessionId c) (messageId c) (question c) (answer c) (pageNumbers c)
     (Some r) (success c) (timestamp c).
End Chat.

(** [ProcessedPDFSchema] of server.js. *)
Module ProcessedPDF.
Record t : Type := mk {
  filename : string;
  fileSize : Z;
  processedAt : Z;
  chunksCount : Z
}.
End ProcessedPDF.

(** A langchain [Document] as [processIfNew] builds it and as
    [similaritySearch] returns it. *)
Module Document.
Record Metadata : Type := mkMetadata {
  source : string;
  chunkIndex : Z;
  pageNumber : Z;
  fileSize : Z
}.
Record t : Type := mk {
  pageContent : string;
  metadata : Metadata
}.
End Document.

(** What [getAnswer] returns; [consistent] is only set on a cache hit. *)
Module Response.
Record t : Type := mk {
  messageId : string;
  answer : string;
  pageNumbers : list Z;
  consistent : option bool
}.
End Response.

(** The three variables substituted into [promptTemplate]. *)
Record Prompt : Type := mkPrompt {
  context : string;
  history : string;
  question : string
}.

(** What [pdf(pdfBuffer)] returns. *)
Record PdfData : Type := mkPdfData {
  text : string;
  numpages : Z
}.

(** Calls made to the retrieval and generation collaborators. *)
Inductive Event : Type :=
| SimilaritySearch (query : string) (k : Z)
| LlmInvoke (promptText : Prompt)
| FromDocuments (docs : list Document.t).

(** The document store (both collections, in insertion order), the
    vector index, and the calls made so far. *)
Record World : Type := mkWorld {
  chats : list Chat.t;
  processedPDFs : list ProcessedPDF.t;
  vectors : list Document.t;
  trace : list Event
}.

(* ================================================================== *)
(** ** Sequencing, exceptions *)

Inductive Outcome (A : Type) : Type :=
| Returned (a : A)
| Thrown.
Arguments Returned {A} a.
Arguments Thrown {A}.

Definition M (A : Type) : Type := World -> Outcome A * World.

Definition ret {A : Type} (a : A) : M A := fun w => (Returned a, w).

Definition throw {A : Type} : M A := fun w => (Thrown, w).

Definition bind {A B : Type} (m : M A) (k : A -> M B) : M B :=
  fun w =>
    match m w with
    | (Returned a, w') => k a w'
    | (Thrown, w') => (Thrown, w')
    end.

(** [try { m } catch (error) { handler }] *)
Definition tryCatch {A : Type} (m : M A) (handler : M A) : M A :=
  fun w =>
    match m w with
    | (Returned a, w') => (Returned a, w')
    | (Thrown, w') => handler w'
    end.

Declare Scope js_scope.
Delimit Scope js_scope with js.
Notation "x <- m ;; k" := (bind m (fun x => k))
  (at level 61, m at next level, right associativity) : js_scope.
Notation "' pat <- m ;; k" := (bind m (fun x => match x with pat => k end))
  (at level 61, pat pattern, m at next level, right associativity) : js_scope.
Notation "m ;; k" := (bind m (fun _ => k))
  (at level 61, right associativity) : js_scope.

Definition emit (ev : Event) : M unit :=
  fun w => (Returned tt,
            mkWorld (chats w) (processedPDFs w) (vectors w) (trace w ++ [ev])).

(** An external call whose result, or failure, the environment decides. *)
Definition orThrow {A : Type} (result : option A) : M A :=
  match result with
  | Some a => ret a
  | None => throw
  end.

Definition failWhen (fails : bool) : M unit :=
  if fails then throw else ret tt.

(* ================================================================== *)
(** ** The answer pipeline: [getAnswer] *)

Module Answer.
Import JsString JsArray.
Local Open Scope js_scope.

(** What the collaborators answer during one call of [getAnswer]. *)
Record Env : Type := mkEnv {
  uuidv4 : string;
  (** [Date.now()], the default of the [timestamp] field *)
  now : Z;
  (** does [mongoose.model('Chat')] find the model, or throw *)
  chatModelRegistered : bool;
  (** does [Chat.findOne], [Chat.find], [newChat.save()] / [chat.save()],
      [errorChat.save()] reject *)
  findOneFails : bool;
  findFails : bool;
  saveFails : bool;
  errorSaveFails : bool;
  (** the global [vectorStore]: unset, or a [similaritySearch] that
      returns documents or throws *)
  vectorStore : option (string -> Z -> option (list Document.t));
  (** [llm.invoke(promptText)]: the [content] of the reply, or a throw *)
  llm : Prompt -> option string
}.

(** *** Fixed answers *)

Definition initializingAnswer : string :=
  "## System Error

System is initializing. Please wait a moment and try again.".

Definition notAvailableAnswer : string :=
  "## Information Not Available

I don't have relevant information in the hospital guidelines to answer this question.

## Please Check
• PDF documents are uploaded to the system
• The question relates to hospital procedures or guidelines
• System has finished processing documents".

Definition errorAnswer : string :=
  "## System Error

I apologize, but I encountered an error while processing your question.

## Please Try
• Asking the question again
• Using different wording
• Checking if the system is properly initialized".

(** *** [isErrorResponse] *)

Definition errorPatterns : list string :=
  [ "## System Error";
    "## Error";
    "encountered an error";
    "something went wrong";
    "System is initializing";
    "Information Not Available" ].

Definition isErrorResponse (answer : string) : bool :=
  existsb (fun pattern => includes (toLowerCase answer) (toLowerCase pattern))
          errorPatterns.

(** *** Queries on the [Chat] collection *)

(** The filter [{ question, success: true }]. *)
Definition matchesQuestion (question : string) (c : Chat.t) : bool :=
  (Chat.question c =? question)%string && Chat.success c.

(** The filter [{ sessionId, success: true }]. *)
Definition matchesSession (sessionId : string) (c : Chat.t) : bool :=
  (Chat.sessionId c =? sessionId)%string && Chat.success c.

(** [.sort({ timestamp: -1 })] *)
Definition newestFirst (a b : Chat.t) : Z := Chat.timestamp b - Chat.timestamp a.

Definition Chat_model (env : Env) : M unit :=
  failWhen (negb (chatModelRegistered env)).

Definition Chat_findOne (env : Env) (question : string) : M (option Chat.t) :=
  failWhen (findOneFails env) ;;
  fun w => ret (find (matchesQuestion question) (chats w)) w.

(** [Chat.find({ sessionId, success: true }).sort({ timestamp: -1 }).limit(3)] *)
Definition findRecent (sessionId : string) (collection : list Chat.t)
  : list Chat.t :=
  firstn 3 (sort newestFirst (filter (matchesSession sessionId) collection)).

Definition Chat_findRecent (env : Env) (sessionId : string) : M (list Chat.t) :=
  failWhen (findFails env) ;;
  fun w => ret (findRecent sessionId (chats w)) w.

Definition Chat_save (fails : bool) (c : Chat.t) : M unit :=
  failWhen fails ;;
  fun w => (Returned tt,
            mkWorld (chats w ++ [c]) (processedPDFs w) (vectors w) (trace w)).

(** *** Steps of [getAnswer] *)

Definition formatTurn (chat : Chat.t) : string :=
  "Q: " ++ Chat.question chat ++ "
A: " ++ Chat.answer chat.

Definition conversationHistory (recentChats : list Chat.t) : string :=
  join "

" (map formatTurn (rev recentChats)).

(** [conversationHistory || 'No previous conversation'] *)
Definition historyOrDefault (conversationHistory : string) : string :=
  if truthy conversationHistory then conversationHistory
  else "No previous conversation".

(** [page && page > 0] *)
Definition keepPage (page : Z) : bool := negb (page =? 0) && (page >? 0).

Definition pageNumbersOf (searchResults : list Document.t) : list Z :=
  let pageNumbers :=
    filter keepPage
      (map (fun result => Document.pageNumber (Document.metadata result))
           searchResults) in
  sort (fun a b => a - b) (fromSet pageNumbers).

Definition contextOf (searchResults : list Document.t) : string :=
  join "

" (map Document.pageContent searchResults).

(** The block "Vector search": [context] and [pageNumbers] keep their
    initial values when there is no store or the search throws. *)
Definition vectorSearch (env : Env) (question : string)
  : M (string * list Z) :=
  match vectorStore env with
  | None => ret ("", [])
  | Some similaritySearch =>
      tryCatch
        (emit (SimilaritySearch question 5) ;;
         searchResults <- orThrow (similaritySearch question 5) ;;
         ret (contextOf searchResults, pageNumbersOf searchResults))
        (ret ("", []))
  end.

Definition llm_invoke (env : Env) (promptText : Prompt) : M string :=
  emit (LlmInvoke promptText) ;;
  orThrow (llm env promptText).

(** [Chat.findOneAndUpdate({ messageId }, { rating })] of the feedback
    route: the first turn with that id gets the rating; none is a no-op. *)
Fixpoint findOneAndUpdateRating (messageId : string) (rating : Z)
         (l : list Chat.t) : list Chat.t :=
  match l with
  | [] => []
  | c :: r =>
      if (Chat.messageId c =? messageId)%string then Chat.withRating c rating :: r
      else c :: findOneAndUpdateRating messageId rating r
  end.

Section Pipeline.
(** The regular-expression rewriting done by [formatResponse] and by
    the two [replace] calls that drop page references is not
    interpreted: the pipeline takes both as given functions. *)
Variable formatResponse : string -> string.
Variable dropPageReferences : string -> string.

(** The [else] branch: generate, format, clean, classify. *)
Definition generate (env : Env) (context conversationHistory question : string)
  : M (string * bool) :=
  tryCatch
    (let promptText :=
       mkPrompt context (historyOrDefault conversationHistory) question in
     content <- llm_invoke env promptText ;;
     let answer := formatResponse content in
     let answer := trim (dropPageReferences answer) in
     ret (answer, if isErrorResponse answer then false else true))
    (ret (errorAnswer, false)).

Definition getAnswer (env : Env) (question sessionId : string)
  : M Response.t :=
  let messageId := uuidv4 env in
  tryCatch
    (if negb (chatModelRegistered env) then
       ret (Response.mk messageId initializingAnswer [] None)
     else
       exactMatch <- Chat_findOne env (toLowerCase (trim question)) ;;
       match exactMatch with
       | Some exactMatch =>
           Chat_save (saveFails env)
             (Chat.mk sessionId messageId (trim question)
                      (Chat.answer exactMatch) (Chat.pageNumbers exactMatch)
                      None true (now env)) ;;
           ret (Response.mk messageId (Chat.answer exactMatch)
                            (Chat.pageNumbers exactMatch) (Some true))
       | None =>
           recentChats <- Chat_findRecent env sessionId ;;
           let conversationHistory := conversationHistory recentChats in
           '(context, pageNumbers) <- vectorSearch env question ;;
           '(answer, isSuccess) <-
              (if negb (truthy context) then ret (notAvailableAnswer, false)
               else generate env context conversationHistory question) ;;
           Chat_save (saveFails env)
             (Chat.mk sessionId messageId (toLowerCase (trim question))
                      answer pageNumbers None isSuccess (now env)) ;;
           ret (Response.mk messageId answer pageNumbers None)
       end)
    (tryCatch
       (Chat_model env ;;
        Chat_save (errorSaveFails env)
          (Chat.mk sessionId messageId (toLowerCase (trim question))
                   errorAnswer [] None false (now env)))
       (ret tt) ;;
     ret (Response.mk messageId errorAnswer [] None)).

(** The [Chat] collections the server can build up from an empty one,
    by answering questions and by recording ratings. *)
Inductive reachable : list Chat.t -> Prop :=
| reachable_empty : reachable []
| reachable_getAnswer (env : Env) (question sessionId : string) (w : World) :
    reachable (chats w) ->
    reachable (chats (snd (getAnswer env question sessionId w)))
| reachable_feedback (messageId : string) (rating : Z)
                     (collection : list Chat.t) :
    reachable collection ->
    reachable (findOneAndUpdateRating messageId rating collection).
End Pipeline.

(** *** Vocabulary of the statements *)

(** [question.trim().toLowerCase()], the key of the consistency cache. *)
Definition normalized (question : string) : string :=
  toLowerCase (trim question).

(** Every successful turn is answered for by the first successful turn
    stored under its normalized question. *)
Definition cacheCoherent (collection : list Chat.t) : Prop :=
  forall t,
    In t collection -> Chat.success t = true ->
    exists m,
      find (matchesQuestion (normalized (Chat.question t))) collection = Some m /\
      Chat.answer m = Chat.answer t /\
      Chat.pageNumbers m = Chat.pageNumbers t.


(** What the block "Vector search" leaves in [context] and [pageNumbers]. *)
Definition retrieved (env : Env) (question : string) : string * list Z :=
  match vectorStore env with
  | None => ("", [])
  | Some similaritySearch =>
      match similaritySearch question 5 with
      | None => ("", [])
      | Some searchResults =>
          (contextOf searchResults, pageNumbersOf searchResults)
      end
  end.

Definition isLlmInvoke (ev : Event) : bool :=
  match ev with LlmInvoke _ => true | _ => false end.

(** [s] contains [phrase], letter case ignored. *)
Definition containsIgnoringCase (s phrase : string) : Prop :=
  exists before after : string,
    toLowerCase s = before ++ toLowerCase phrase ++ after.

End Answer.

(* ================================================================== *)
(** ** The ingestion pipeline: [processIfNew], [processPDFs] *)

Module Ingest.
Import JsArray.
Local Open Scope js_scope.

(** What the collaborators answer during one call of [processIfNew]. *)
Record Env : Type := mkEnv {
  (** [fs.statSync(filePath).size], or a throw *)
  statSync : option Z;
  (** does [mongoose.model('ProcessedPDF')] find the model, or throw *)
  pdfModelRegistered : bool;
  (** does [ProcessedPDF.findOne], [processedRecord.save()] reject *)
  findOneFails : bool;
  saveFails : bool;
  (** [fs.readFileSync] followed by [pdf(pdfBuffer)], or a throw *)
  readAndParse : option PdfData;
  (** [textSplitter.createDocuments([text])]: the chunks, in order *)
  createDocuments : string -> list string;
  (** does [PineconeStore.fromDocuments] reject *)
  fromDocumentsFails : bool;
  (** [Date.now()], the default of the [processedAt] field *)
  now : Z
}.

(** The filter [{ filename, fileSize }]. *)
Definition matchesFile (filename : string) (fileSize : Z)
           (r : ProcessedPDF.t) : bool :=
  (ProcessedPDF.filename r =? filename)%string
  && (ProcessedPDF.fileSize r =? fileSize).

Definition ProcessedPDF_model (env : Env) : M unit :=
  failWhen (negb (pdfModelRegistered env)).

Definition ProcessedPDF_findOne (env : Env) (filename : string) (fileSize : Z)
  : M (option ProcessedPDF.t) :=
  failWhen (findOneFails env) ;;
  fun w => ret (find (matchesFile filename fileSize) (processedPDFs w)) w.

Definition ProcessedPDF_save (env : Env) (r : ProcessedPDF.t) : M unit :=
  failWhen (saveFails env) ;;
  fun w => (Returned tt,
            mkWorld (chats w) (processedPDFs w ++ [r]) (vectors w) (trace w)).

(** [PineconeStore.fromDocuments(langchainDocs, embeddings, ...)] *)
Definition PineconeStore_fromDocuments (env : Env) (docs : list Document.t)
  : M unit :=
  emit (FromDocuments docs) ;;
  failWhen (fromDocumentsFails env) ;;
  fun w => (Returned tt,
            mkWorld (chats w) (processedPDFs w) (vectors w ++ docs) (trace w)).

Section PageEstimate.
(** Rounding of an exact arithmetic result to a JavaScript number. *)
Variable fl : Q -> Q.

(** [Math.floor((index * 1000) / (text.length / numpages)) + 1] *)
Definition estimatedPage (index textLength numpages : Z) : Z :=
  Qfloor (fl (fl (inject_Z (index * 1000))
              / fl (inject_Z textLength / inject_Z numpages)))%Q + 1.

(** [Math.min(estimatedPage, pdfData.numpages)] *)
Definition pageNumberOf (index textLength numpages : Z) : Z :=
  Z.min (estimatedPage index textLength numpages) numpages.

Definition langchainDocs (filename : string) (fileSize : Z)
           (pdfData : PdfData) (docs : list string) : list Document.t :=
  mapIndex
    (fun doc index =>
       Document.mk doc
         (Document.mkMetadata filename index
            (pageNumberOf index (Z.of_nat (String.length (text pdfData)))
                          (numpages pdfData))
            fileSize))
    docs.

Definition processIfNew (env : Env) (filename : string) : M unit :=
  tryCatch
    (fileSize <- orThrow (statSync env) ;;
     existing <-
       tryCatch
         (ProcessedPDF_model env ;;
          ProcessedPDF_findOne env filename fileSize)
         (ret None) ;;
     match existing with
     | Some _ => ret tt
     | None =>
         pdfData <- orThrow (readAndParse env) ;;
         let docs := createDocuments env (text pdfData) in
         let langchainDocs := langchainDocs filename fileSize pdfData docs in
         PineconeStore_fromDocuments env langchainDocs ;;
         tryCatch
           (ProcessedPDF_model env ;;
            ProcessedPDF_save env
              (ProcessedPDF.mk filename fileSize (now env)
                               (Z.of_nat (List.length langchainDocs))))
           (ret tt) ;;
         ret tt
     end)
    (ret tt).

(** The loop of [processPDFs] over the files of the folder, each with
    the environment its own [processIfNew] runs in. *)
Fixpoint processPDFs (files : list (string * Env)) : M unit :=
  match files with
  | [] => ret tt
  | (filename, env) :: rest =>
      processIfNew env filename ;; processPDFs rest
  end.
End PageEstimate.

(** The page attribution in the words of the specification: the
    estimate over the average number of characters per page, clamped to
    the pages of the document. *)
Definition targetChunkLength : Z := 1000.

Definition averageCharsPerPage (fl : Q -> Q) (totalTextLength totalPages : Z) : Q :=
  fl (inject_Z totalTextLength / inject_Z totalPages)%Q.

Definition clamp (lo hi x : Z) : Z := Z.max lo (Z.min x hi).

Definition specEstimatedPage (fl : Q -> Q)
           (ordinalIndex totalTextLength totalPages : Z) : Z :=
  clamp 1 totalPages
    (Qfloor (fl (fl (inject_Z (ordinalIndex * targetChunkLength))
                 / averageCharsPerPage fl totalTextLength totalPages))%Q + 1).

(** Number of [FromDocuments] calls in a trace. *)
Definition indexerCalls (tr : list Event) : nat :=
  List.length (filter (fun ev => match ev with FromDocuments _ => true | _ => false end) tr).

(** Number of ingestion records for a (name, size) pair. *)
Definition recordsFor (filename : string) (fileSize : Z) (w : World) : nat :=
  List.length (filter (matchesFile filename fileSize) (processedPDFs w)).

End Ingest.

(* ================================================================== *)
(** ** A running scenario *)

Module Scenario.

(** Post-processing that leaves the reply of the model as it is. *)
Definition verbatim (s : string) : string := s.

(** Arithmetic without rounding error. *)
Definition exact (x : Q) : Q := x.

Definition emptyStore : World := mkWorld [] [] [] [].

Definition passage (content : string) (page : Z) : Document.t :=
  Document.mk content (Document.mkMetadata "policy.pdf" 0 page 10240).

(** A first question, answered from three retrieved passages. *)
Definition firstAsk : Answer.Env :=
  Answer.mkEnv "m-1" 100 true false false false false
    (Some (fun _ _ =>
             Some [ passage "JCI accredits hospitals." 2;
                    passage "JCI publishes standards." 1;
                    passage "Accreditation lasts three years." 2 ]))
    (fun _ => Some "JCI is the Joint Commission International.").

Definition afterFirstAsk : World :=
  snd (Answer.getAnswer verbatim verbatim firstAsk "What is JCI?" "s-1"
                        emptyStore).

Definition firstTurn : Chat.t :=
  Chat.mk "s-1" "m-1" "what is jci?"
          "JCI is the Joint Commission International." [1; 2] None true 100.

(** The same question asked again, in other letter case, from another
    session, with retrieval and generation out of reach. *)
Definition secondAsk : Answer.Env :=
  Answer.mkEnv "m-2" 200 true false false false false None (fun _ => None).

(** A question asked before any document was ingested. *)
Definition noDocuments : Answer.Env :=
  Answer.mkEnv "m-3" 300 true false false false false None
    (fun _ => Some "never asked").

(** A two-page document of 4000 characters, split into five chunks. *)
Definition policyText : string :=
  String.concat "" (repeat "Each policy is reviewed by the board once a year. " 80).

Definition policyPdf : PdfData := mkPdfData policyText 2.

Definition fiveChunks (_ : string) : list string :=
  ["chunk 0"; "chunk 1"; "chunk 2"; "chunk 3"; "chunk 4"].


(** The same ingestion with a ledger that rejects the write. *)
Definition ingestLedgerDown : Ingest.Env :=
  Ingest.mkEnv (Some 10240) true false true (Some policyPdf) fiveChunks
               false 50.

End Scenario.

(* ================================================================== *)
(** ** The routes of server.js *)

Module Server.
Import JsString JsArray.
Local Open Scope js_scope.

(** What mongoose answers during one call of a route. *)
Record Env : Type := mkEnv {
  (** does [Chat.findOneAndUpdate] reject *)
  findOneAndUpdateFails : bool
}.

(** [req.body] of POST /api/chat; a field is absent or holds a string. *)
Record ChatBody : Type := mkChatBody {
  message : option string;
  sessionId : option string
}.


(** What a route sends back. *)
Inductive Reply : Type :=
| Answered (result : Response.t)
| Rated
| Failed (status : Z) (error : string).

(** The HTTP status of a reply: 200 unless [res.status] was called. *)
Definition statusOf (r : Reply) : Z :=
  match r with
  | Failed status _ => status
  | _ => 200
  end.

(** [!field] for a string field of the body. *)
Definition missingText (field : option string) : bool :=
  match field with
  | Some s => negb (truthy s)
  | None => true
  end.


Definition textOf (field : option string) : string :=
  match field with
  | Some s => s
  | None => ""
  end.



Section Routes.
Variable formatResponse : string -> string.
Variable dropPageReferences : string -> string.

(** [app.post('/api/chat', ...)] *)
Definition chatRoute (answerEnv : Answer.Env) (body : ChatBody) : M Reply :=
  tryCatch
    (if missingText (message body) || missingText (sessionId body) then
       ret (Failed 400 "Message and sessionId required")
     else
       result <- Answer.getAnswer formatResponse dropPageReferences answerEnv
                   (textOf (message body)) (textOf (sessionId body)) ;;
       ret (Answered result))
    (ret (Failed 500 "Failed to generate response")).
End Routes.


End Server.

(* ================================================================== *)
(** ** More of the scenario *)

Module Walkthrough.
Import Scenario.

(** A question whose generation call throws. *)
Definition modelDown : Answer.Env :=
  Answer.mkEnv "m-4" 400 true false false false false
    (Some (fun _ _ => Some [passage "Hand hygiene comes first." 7]))
    (fun _ => None).

End Walkthrough.

(* ================================================================== *)
(** * Properties *)

(** ** Strings *)

Section StringFacts.
Import JsString.

Lemma isWhiteSpace_lowerChar (c : ascii) :
  isWhiteSpace (lowerChar c) = isWhiteSpace c.
Proof. destruct c as [[] [] [] [] [] [] [] []]; reflexivity. Qed.

Lemma lowerChar_idempotent (c : ascii) :
  lowerChar (lowerChar c) = lowerChar c.
Proof. destruct c as [[] [] [] [] [] [] [] []]; reflexivity. Qed.

Lemma toLowerCase_idempotent (s : string) :
  toLowerCase (toLowerCase s) = toLowerCase s.
Proof.
  induction s as [|c r IH]; simpl; [reflexivity|].
  now rewrite lowerChar_idempotent, IH.
Qed.

Lemma toLowerCase_app (s t : string) :
  toLowerCase (s ++ t) = toLowerCase s ++ toLowerCase t.
Proof. induction s as [|c r IH]; simpl; [reflexivity | now rewrite IH]. Qed.

Lemma trimStart_toLowerCase (s : string) :
  trimStart (toLowerCase s) = toLowerCase (trimStart s).
Proof.
  induction s as [|c r IH]; simpl; [reflexivity|].
  rewrite isWhiteSpace_lowerChar.
  destruct (isWhiteSpace c); [exact IH | reflexivity].
Qed.

Lemma trimEnd_toLowerCase (s : string) :
  trimEnd (toLowerCase s) = toLowerCase (trimEnd s).
Proof.
  induction s as [|c r IH]; simpl; [reflexivity|].
  rewrite IH, isWhiteSpace_lowerChar.
  destruct (trimEnd r); simpl; [destruct (isWhiteSpace c)|]; reflexivity.
Qed.

Lemma trim_toLowerCase (s : string) :
  trim (toLowerCase s) = toLowerCase (trim s).
Proof. unfold trim. now rewrite trimStart_toLowerCase, trimEnd_toLowerCase. Qed.

Lemma trimStart_startsClean (s : string) : startsClean (trimStart s).
Proof.
  induction s as [|c r IH]; simpl; [exact I|].
  destruct (isWhiteSpace c) eqn:E; [exact IH | exact E].
Qed.

Lemma trimStart_fixes_clean (s : string) : startsClean s -> trimStart s = s.
Proof. destruct s as [|c r]; simpl; [reflexivity|]. now intros ->. Qed.

Lemma trimEnd_keeps_clean (s : string) : startsClean s -> startsClean (trimEnd s).
Proof.
  destruct s as [|c r]; simpl; [trivial|]. intros E.
  destruct (trimEnd r); simpl; [rewrite E|]; exact E.
Qed.

Lemma trimEnd_cons (c : ascii) (r : string) :
  trimEnd (String c r) =
  match trimEnd r with
  | EmptyString => if isWhiteSpace c then EmptyString else String c EmptyString
  | r' => String c r'
  end.
Proof. reflexivity. Qed.

Lemma trimEnd_idempotent (s : string) : trimEnd (trimEnd s) = trimEnd s.
Proof.
  induction s as [|c r IH]; simpl; [reflexivity|].
  destruct (trimEnd r) as [|c' r'] eqn:E.
  - destruct (isWhiteSpace c) eqn:Ec; simpl; [reflexivity | now rewrite Ec].
  - rewrite trimEnd_cons, IH. reflexivity.
Qed.

Lemma trim_idempotent (s : string) : trim (trim s) = trim s.
Proof.
  unfold trim.
  rewrite (trimStart_fixes_clean (trimEnd (trimStart s))).
  - apply trimEnd_idempotent.
  - apply trimEnd_keeps_clean, trimStart_startsClean.
Qed.

Lemma prefix_app (p s : string) :
  prefix p s = true <-> exists rest, s = p ++ rest.
Proof.
  revert s. induction p as [|c p IH]; intros s; simpl.
  - split; [intros _; now exists s | now destruct s].
  - destruct s as [|d s]; simpl.
    + split; [discriminate | intros [rest H]; discriminate].
    + destruct (ascii_dec c d) as [->|N].
      * rewrite IH. split; intros [rest H]; exists rest; congruence.
      * split; [discriminate | intros [rest H]; congruence].
Qed.

(** [includes] is containment as a contiguous run of characters. *)
Lemma includes_spec (s sub : string) :
  includes s sub = true <-> exists before after, s = before ++ sub ++ after.
Proof.
  induction s as [|c r IH]; cbn [includes].
  - rewrite orb_false_r, prefix_app. split.
    + intros [rest H]. now exists "", rest.
    + intros [[|b before] [after H]]; simpl in H; [now exists after | discriminate].
  - rewrite orb_true_iff, prefix_app, IH. split.
    + intros [[rest H] | [before [after H]]].
      * now exists "", rest.
      * exists (String c before), after. simpl. now rewrite H.
    + intros [[|b before] [after H]]; simpl in H.
      * left. now exists after.
      * right. exists before, after. congruence.
Qed.
End StringFacts.

(** ** Arrays: [sort], [Set] *)

Section SortFacts.
Import JsArray.
Context {A : Type}.
Variable compareFn : A -> A -> Z.
Hypothesis compare_total :
  forall x y, 0 < compareFn x y -> compareFn y x <= 0.
Hypothesis compare_trans :
  forall x y z, compareFn x y <= 0 -> compareFn y z <= 0 -> compareFn x z <= 0.

Lemma insert_Permutation (x : A) (l : list A) :
  Permutation (x :: l) (insert compareFn x l).
Proof.
  induction l as [|y r IH]; simpl; [reflexivity|].
  destruct (compareFn x y <=? 0); [reflexivity|].
  rewrite perm_swap. now apply perm_skip.
Qed.

Lemma sort_Permutation (l : list A) : Permutation l (sort compareFn l).
Proof.
  induction l as [|x r IH]; simpl; [reflexivity|].
  rewrite <- insert_Permutation. now apply perm_skip.
Qed.

Lemma insert_sorted (x : A) (l : list A) :
  StronglySorted (inOrder compareFn) l ->
  StronglySorted (inOrder compareFn) (insert compareFn x l).
Proof.
  induction 1 as [|y r Hr IH Hy]; simpl.
  - repeat constructor.
  - destruct (compareFn x y <=? 0) eqn:E.
    + apply Z.leb_le in E. constructor; [now constructor|].
      constructor; [exact E|].
      eapply Forall_impl; [|exact Hy]. intros z Hz. now apply compare_trans with y.
    + apply Z.leb_gt in E. constructor; [exact IH|].
      apply (Permutation_Forall (insert_Permutation x r)).
      constructor; [now apply compare_total | exact Hy].
Qed.

Lemma sort_sorted (l : list A) :
  StronglySorted (inOrder compareFn) (sort compareFn l).
Proof.
  induction l as [|x r IH]; simpl; [constructor | now apply insert_sorted].
Qed.
End SortFacts.

Section SortedFacts.
Context {A : Type}.
Variable R : A -> A -> Prop.



End SortedFacts.

Lemma StronglySorted_impl {A : Type} (R R' : A -> A -> Prop) (l : list A) :
  (forall a b, R a b -> R' a b) -> StronglySorted R l -> StronglySorted R' l.
Proof.
  intros Himp. induction 1 as [|y r Hr IH Hy]; constructor; [exact IH|].
  eapply Forall_impl; [|exact Hy]. intros z. apply Himp.
Qed.


Section SetFacts.
Import JsArray.

Lemma setAdd_spec (seen : list Z) (x : Z) :
  NoDup seen ->
  NoDup (setAdd seen x) /\ (forall y, In y (setAdd seen x) <-> In y seen \/ y = x).
Proof.
  intros Hnd. unfold setAdd.
  destruct (existsb (Z.eqb x) seen) eqn:E.
  - apply existsb_exists in E as (z & Hz & Hxz). apply Z.eqb_eq in Hxz. subst z.
    split; [exact Hnd|]. intros y. split; [now left | now intros [H | ->]].
  - split.
    + apply NoDup_app; [exact Hnd | repeat constructor; intros [] |].
      intros y Hy [<-|[]].
      assert (existsb (Z.eqb x) seen = true) as C; [|congruence].
      apply existsb_exists. exists x. split; [exact Hy | apply Z.eqb_refl].
    + intros y. rewrite in_app_iff. simpl. intuition congruence.
Qed.

Lemma fold_setAdd_spec (xs seen : list Z) :
  NoDup seen ->
  NoDup (fold_left setAdd xs seen) /\
  (forall y, In y (fold_left setAdd xs seen) <-> In y seen \/ In y xs).
Proof.
  revert seen. induction xs as [|x r IH]; simpl; intros seen Hnd.
  - split; [exact Hnd | intuition].
  - destruct (setAdd_spec seen x Hnd) as [Hnd' Hin].
    destruct (IH _ Hnd') as [H1 H2]. split; [exact H1|].
    intros y. rewrite H2, Hin. intuition.
Qed.

Lemma fromSet_NoDup (xs : list Z) : NoDup (fromSet xs).
Proof. apply fold_setAdd_spec. constructor. Qed.

Lemma fromSet_In (xs : list Z) (y : Z) : In y (fromSet xs) <-> In y xs.
Proof.
  unfold fromSet. destruct (fold_setAdd_spec xs [] (NoDup_nil _)) as [_ H].
  rewrite H. simpl. intuition.
Qed.
End SetFacts.

(** ** Retrieval: [context] and [pageNumbers] *)

Section RetrievalFacts.
Import JsString JsArray Answer.

Lemma keepPage_spec (page : Z) : keepPage page = true <-> 0 < page.
Proof.
  unfold keepPage. rewrite andb_true_iff, negb_true_iff, Z.eqb_neq, Z.gtb_ltb, Z.ltb_lt.
  lia.
Qed.

Lemma pageNumbersOf_In (searchResults : list Document.t) (p : Z) :
  In p (pageNumbersOf searchResults) <->
  0 < p /\
  exists result, In result searchResults /\
                 Document.pageNumber (Document.metadata result) = p.
Proof.
  unfold pageNumbersOf.
  split.
  - intros H.
    apply (Permutation_in _ (Permutation_sym (sort_Permutation _ _))) in H.
    apply fromSet_In, filter_In in H as [H1 H2].
    apply keepPage_spec in H2. apply in_map_iff in H1 as (r & Hr & Hin).
    split; [exact H2 | now exists r].
  - intros (Hp & r & Hin & Hr).
    apply (Permutation_in _ (sort_Permutation _ _)).
    apply fromSet_In, filter_In. split; [|now apply keepPage_spec].
    apply in_map_iff. now exists r.
Qed.

Lemma pageNumbersOf_NoDup (searchResults : list Document.t) :
  NoDup (pageNumbersOf searchResults).
Proof.
  unfold pageNumbersOf.
  eapply Permutation_NoDup; [apply sort_Permutation | apply fromSet_NoDup].
Qed.

Lemma StronglySorted_le_NoDup_lt (l : list Z) :
  StronglySorted Z.le l -> NoDup l -> StronglySorted Z.lt l.
Proof.
  induction 1 as [|x r Hr IH Hx]; intros Hnd; [constructor|].
  apply NoDup_cons_iff in Hnd as [Hnin Hnd].
  constructor; [now apply IH|].
  rewrite Forall_forall in *. intros y Hy.
  specialize (Hx y Hy). assert (x <> y) by (intros ->; contradiction). lia.
Qed.

Lemma pageNumbersOf_ascending (searchResults : list Document.t) :
  StronglySorted Z.lt (pageNumbersOf searchResults).
Proof.
  apply StronglySorted_le_NoDup_lt; [|apply pageNumbersOf_NoDup].
  unfold pageNumbersOf.
  apply StronglySorted_impl with (R := inOrder (fun a b => a - b)).
  - intros a b. unfold inOrder. lia.
  - apply sort_sorted; intros; lia.
Qed.

(** The block "Vector search" never throws; it calls [similaritySearch]
    once when a store is set, and nothing else. *)
Lemma vectorSearch_spec (env : Env) (question : string) (w : World) :
  vectorSearch env question w =
  (Returned (retrieved env question),
   mkWorld (chats w) (processedPDFs w) (vectors w)
           (trace w ++ match vectorStore env with
                       | None => []
                       | Some _ => [SimilaritySearch question 5]
                       end)).
Proof.
  unfold vectorSearch, retrieved.
  destruct (vectorStore env) as [similaritySearch|].
  - unfold tryCatch, bind, emit, orThrow, ret, throw.
    destruct (similaritySearch question 5); reflexivity.
  - unfold ret. rewrite app_nil_r. now destruct w.
Qed.

(** C3.  Whatever the retrieval step of a request leaves in
    [pageNumbers] is strictly ascending, hence without duplicates, and
    holds no value [<= 0]; when the search returned passages, it holds
    exactly the page numbers [> 0] of those passages. *)
Theorem retrieval_pageNumbers_ascending_distinct_positive
        (env : Env) (question : string) (w : World) :
  exists (context : string) (pageNumbers : list Z) (w' : World),
    vectorSearch env question w = (Returned (context, pageNumbers), w') /\
    StronglySorted Z.lt pageNumbers /\
    NoDup pageNumbers /\
    Forall (fun page => 0 < page) pageNumbers /\
    match vectorStore env with
    | Some similaritySearch =>
        match similaritySearch question 5 with
        | Some searchResults =>
            pageNumbers = pageNumbersOf searchResults /\
            forall page,
              In page pageNumbers <->
              0 < page /\
              exists result,
                In result searchResults /\
                Document.pageNumber (Document.metadata result) = page
        | None => pageNumbers = []
        end
    | None => pageNumbers = []
    end.
Proof.
  rewrite vectorSearch_spec.
  exists (fst (retrieved env question)), (snd (retrieved env question)).
  eexists. split; [now destruct (retrieved env question)|].
  unfold retrieved.
  destruct (vectorStore env) as [similaritySearch|]; simpl;
    [destruct (similaritySearch question 5) as [searchResults|]; simpl|];
    try (repeat split; constructor).
  split; [|split; [|split; [|split]]].
  - apply pageNumbersOf_ascending.
  - apply pageNumbersOf_NoDup.
  - apply Forall_forall. intros p Hp. now apply pageNumbersOf_In in Hp.
  - reflexivity.
  - intros page. apply pageNumbersOf_In.
Qed.
End RetrievalFacts.

(** ** The answer pipeline *)

Lemma find_app_Some {A : Type} (f : A -> bool) (l l' : list A) (m : A) :
  find f l = Some m -> find f (l ++ l') = Some m.
Proof.
  induction l as [|x r IH]; simpl; [discriminate|].
  destruct (f x); [trivial | exact IH].
Qed.

Lemma find_app_None {A : Type} (f : A -> bool) (l l' : list A) :
  find f l = None -> find f (l ++ l') = find f l'.
Proof.
  induction l as [|x r IH]; simpl; [reflexivity|].
  destruct (f x); [discriminate | exact IH].
Qed.

Ltac js_unfold :=
  unfold Answer.getAnswer, Answer.generate, Answer.Chat_findOne,
    Answer.Chat_findRecent, Answer.Chat_save, Answer.Chat_model,
    Answer.llm_invoke, bind, tryCatch, ret, throw, failWhen, orThrow, emit in *.

(** One case split on what the environment or the store answers. *)
Ltac js_step :=
  match goal with
  | |- context [Answer.vectorSearch ?e ?q ?w] =>
      rewrite (vectorSearch_spec e q w)
  | |- context [Answer.chatModelRegistered ?e] =>
      destruct (Answer.chatModelRegistered e) eqn:?
  | |- context [Answer.findOneFails ?e] =>
      destruct (Answer.findOneFails e) eqn:?
  | |- context [find (Answer.matchesQuestion ?k) ?l] =>
      destruct (find (Answer.matchesQuestion k) l) eqn:?
  | |- context [Answer.findFails ?e] =>
      destruct (Answer.findFails e) eqn:?
  | |- context [Answer.retrieved ?e ?q] =>
      destruct (Answer.retrieved e q) as [[|? ?] ?] eqn:?
  | |- context [Answer.llm ?e ?p] =>
      destruct (Answer.llm e p) eqn:?
  | |- context [Answer.isErrorResponse (JsString.trim ?a)] =>
      destruct (Answer.isErrorResponse (JsString.trim a)) eqn:?
  | |- context [Answer.saveFails ?e] =>
      destruct (Answer.saveFails e) eqn:?
  | |- context [Answer.errorSaveFails ?e] =>
      destruct (Answer.errorSaveFails e) eqn:?
  | |- context [Answer.vectorStore ?e] =>
      destruct (Answer.vectorStore e) eqn:?
  end; simpl.

Section AnswerFacts.
Import JsString JsArray Answer.
Variable formatResponse : string -> string.
Variable dropPageReferences : string -> string.

Local Abbreviation getAnswer :=
  (Answer.getAnswer formatResponse dropPageReferences).
Local Arguments isErrorResponse : simpl never.

Lemma normalized_idempotent (q : string) : normalized (normalized q) = normalized q.
Proof.
  unfold normalized.
  now rewrite trim_toLowerCase, trim_idempotent, toLowerCase_idempotent.
Qed.

Lemma normalized_trim (q : string) : normalized (trim q) = normalized q.
Proof. unfold normalized. now rewrite trim_idempotent. Qed.

Lemma fixed_answers_are_error_responses :
  isErrorResponse initializingAnswer = true /\
  isErrorResponse notAvailableAnswer = true /\
  isErrorResponse errorAnswer = true.
Proof. repeat split; vm_compute; reflexivity. Qed.

(** [isErrorResponse] is containment of one of the phrases, letter case
    ignored. *)
Lemma isErrorResponse_spec (answer : string) :
  isErrorResponse answer = true <->
  exists phrase, In phrase errorPatterns /\ containsIgnoringCase answer phrase.
Proof.
  unfold isErrorResponse, containsIgnoringCase. rewrite existsb_exists.
  split; intros (p & Hp & H); exists p; (split; [exact Hp|]);
    now apply includes_spec.
Qed.

(** What one call of [getAnswer] can do: it always returns, writes at
    most one turn and leaves the rest of the store alone.  The turn is
    either the replay of the cached turn or carries the normalized
    question and the verdict of [isErrorResponse]; the retrieval and
    generation services are only called when the cache has no match. *)
Lemma getAnswer_effect (env : Env) (q sid : string) (w : World) :
  exists resp new evs,
    fst (getAnswer env q sid w) = Returned resp /\
    chats (snd (getAnswer env q sid w)) = (chats w ++ new)%list /\
    processedPDFs (snd (getAnswer env q sid w)) = processedPDFs w /\
    vectors (snd (getAnswer env q sid w)) = vectors w /\
    trace (snd (getAnswer env q sid w)) = (trace w ++ evs)%list /\
    (List.length new <= 1)%nat /\
    Forall
      (fun t =>
         (exists m,
             find (matchesQuestion (normalized q)) (chats w) = Some m /\
             t = Chat.mk sid (uuidv4 env) (trim q) (Chat.answer m)
                         (Chat.pageNumbers m) None true (now env))
         \/ (Chat.question t = normalized q /\
             Chat.success t = negb (isErrorResponse (Chat.answer t)) /\
             (Chat.success t = true ->
              find (matchesQuestion (normalized q)) (chats w) = None)))
      new /\
    Forall
      (fun ev =>
         find (matchesQuestion (normalized q)) (chats w) = None /\
         match ev with
         | SimilaritySearch q' k => q' = q /\ k = 5
         | LlmInvoke p =>
             truthy (fst (retrieved env q)) = true /\
             p = mkPrompt (fst (retrieved env q))
                          (historyOrDefault
                             (conversationHistory (findRecent sid (chats w))))
                          q
         | FromDocuments _ => False
         end)
      evs.
Proof.
  destruct fixed_answers_are_error_responses as (Hinit & Hna & Herr).
  unfold normalized. js_unfold.
  repeat js_step.
  all: do 3 eexists.
  all: simpl; rewrite <- ?app_assoc.
  all: (split; [reflexivity|]).
  all: (split; [first [reflexivity | symmetry; apply app_nil_r]|]).
  all: (split; [reflexivity|]).
  all: (split; [reflexivity|]).
  all: (split; [first [reflexivity | symmetry; apply app_nil_r]|]).
  all: (split; [simpl; lia|]).
  all: split;
    [ first [ apply Forall_nil | apply Forall_cons; [|apply Forall_nil] ]
    | repeat first [ apply Forall_nil | apply Forall_cons ] ].
  all: try solve [left; eexists; split; reflexivity].
  all: try solve [split; [reflexivity | split; reflexivity]].
  all: right; split; [reflexivity|]; split;
    [ simpl; rewrite ?Hna, ?Herr;
      repeat match goal with
             | H : isErrorResponse _ = _ |- _ => rewrite H
             end; reflexivity
    | simpl; intros; congruence ].
Qed.

(** *** The paths through [getAnswer] *)

(** Before the [Chat] model is registered the answer is the fixed
    "System is initializing" text; nothing is stored and no service is
    called. *)
Lemma getAnswer_initializing (env : Env) (q sid : string) (w : World) :
  chatModelRegistered env = false ->
  getAnswer env q sid w =
  (Returned (Response.mk (uuidv4 env) initializingAnswer [] None), w).
Proof. intros H. js_unfold. now rewrite H. Qed.

Lemma getAnswer_cache_hit (env : Env) (q sid : string) (w : World) (m : Chat.t) :
  chatModelRegistered env = true ->
  findOneFails env = false ->
  find (matchesQuestion (normalized q)) (chats w) = Some m ->
  saveFails env = false ->
  getAnswer env q sid w =
  (Returned (Response.mk (uuidv4 env) (Chat.answer m) (Chat.pageNumbers m)
                         (Some true)),
   mkWorld (chats w ++ [Chat.mk sid (uuidv4 env) (trim q) (Chat.answer m)
                                (Chat.pageNumbers m) None true (now env)])
           (processedPDFs w) (vectors w) (trace w)).
Proof.
  unfold normalized. intros H1 H2 H3 H4. js_unfold.
  rewrite H1, H2. simpl. rewrite H3, H4. reflexivity.
Qed.

(** A cache hit whose [newChat.save()] rejects ends in the outer
    [catch]: the error answer is returned. *)
Lemma getAnswer_cache_hit_save_rejected
      (env : Env) (q sid : string) (w : World) (m : Chat.t) :
  chatModelRegistered env = true ->
  findOneFails env = false ->
  find (matchesQuestion (normalized q)) (chats w) = Some m ->
  saveFails env = true ->
  fst (getAnswer env q sid w) =
    Returned (Response.mk (uuidv4 env) errorAnswer [] None) /\
  trace (snd (getAnswer env q sid w)) = trace w.
Proof.
  unfold normalized. intros H1 H2 H3 H4. js_unfold.
  rewrite H1, H2. simpl. rewrite H3, H4. simpl.
  destruct (errorSaveFails env); split; reflexivity.
Qed.

Lemma getAnswer_not_available (env : Env) (q sid : string) (w : World) :
  chatModelRegistered env = true ->
  findOneFails env = false ->
  find (matchesQuestion (normalized q)) (chats w) = None ->
  findFails env = false ->
  fst (retrieved env q) = "" ->
  saveFails env = false ->
  getAnswer env q sid w =
  (Returned (Response.mk (uuidv4 env) notAvailableAnswer
                         (snd (retrieved env q)) None),
   mkWorld (chats w ++ [Chat.mk sid (uuidv4 env) (normalized q)
                                notAvailableAnswer (snd (retrieved env q))
                                None false (now env)])
           (processedPDFs w) (vectors w)
           (trace w ++ match vectorStore env with
                       | None => []
                       | Some _ => [SimilaritySearch q 5]
                       end)).
Proof.
  unfold normalized. intros H1 H2 H3 H4 H5 H6. js_unfold.
  rewrite H1, H2. simpl. rewrite H3, H4. simpl.
  rewrite vectorSearch_spec.
  destruct (retrieved env q) as [ctx pages]. simpl in H5. subst ctx. simpl.
  rewrite H6. reflexivity.
Qed.

(** On a cache miss with a working store exactly one turn is written,
    under the normalized question. *)
Lemma getAnswer_cache_miss (env : Env) (q sid : string) (w : World) :
  chatModelRegistered env = true ->
  findOneFails env = false ->
  find (matchesQuestion (normalized q)) (chats w) = None ->
  findFails env = false ->
  saveFails env = false ->
  exists answer isSuccess,
    fst (getAnswer env q sid w) =
      Returned (Response.mk (uuidv4 env) answer (snd (retrieved env q)) None) /\
    chats (snd (getAnswer env q sid w)) =
      (chats w ++ [Chat.mk sid (uuidv4 env) (normalized q) answer
                           (snd (retrieved env q)) None isSuccess (now env)])%list.
Proof.
  unfold normalized. intros H1 H2 H3 H4 H5. js_unfold.
  rewrite H1, H2. simpl. rewrite H3, H4. simpl.
  rewrite vectorSearch_spec.
  destruct (retrieved env q) as [[|c ctx] pages]; simpl.
  - rewrite H5. simpl. eauto.
  - destruct (llm env _); simpl; rewrite H5; simpl; eauto.
Qed.

(** *** The consistency cache on the collections the server builds *)

Lemma cacheCoherent_getAnswer (env : Env) (q sid : string) (w : World) :
  cacheCoherent (chats w) ->
  cacheCoherent (chats (snd (getAnswer env q sid w))).
Proof.
  intros Hinv.
  destruct (getAnswer_effect env q sid w)
    as (resp & new & evs & _ & Hc & _ & _ & _ & Hlen & Hturn & _).
  rewrite Hc. intros t Hin Hs.
  apply in_app_iff in Hin as [Hold|Hnew].
  - destruct (Hinv t Hold Hs) as (m & Hf & Ha & Hp).
    exists m. split; [now apply find_app_Some | now split].
  - assert (new = [t]) as ->.
    { destruct new as [|t0 [|t1 r]]; simpl in *; [contradiction | | lia].
      destruct Hnew as [->|[]]. reflexivity. }
    apply Forall_inv in Hturn as [(m & Hf & ->)|(Hq & _ & Hnone)]; simpl.
    + rewrite normalized_trim. exists m.
      split; [now apply find_app_Some | now split].
    + rewrite Hq, normalized_idempotent. exists t.
      split; [|now split].
      rewrite find_app_None by auto. simpl.
      unfold matchesQuestion. now rewrite Hq, String.eqb_refl, Hs.
Qed.

Lemma findOneAndUpdateRating_find (mid : string) (r : Z) (k : string)
      (l : list Chat.t) (m : Chat.t) :
  find (matchesQuestion k) l = Some m ->
  exists m',
    find (matchesQuestion k) (findOneAndUpdateRating mid r l) = Some m' /\
    Chat.answer m' = Chat.answer m /\
    Chat.pageNumbers m' = Chat.pageNumbers m.
Proof.
  revert m. induction l as [|c rest IH]; simpl; intros m; [discriminate|].
  destruct (Chat.messageId c =? mid)%string; simpl.
  - change (matchesQuestion k (Chat.withRating c r)) with (matchesQuestion k c).
    destruct (matchesQuestion k c).
    + intros [= <-]. now exists (Chat.withRating c r).
    + intros H. now exists m.
  - destruct (matchesQuestion k c).
    + intros [= <-]. now exists c.
    + apply IH.
Qed.

Lemma findOneAndUpdateRating_In (mid : string) (r : Z) (l : list Chat.t)
      (t' : Chat.t) :
  In t' (findOneAndUpdateRating mid r l) ->
  exists t,
    In t l /\ Chat.question t' = Chat.question t /\
    Chat.success t' = Chat.success t /\ Chat.answer t' = Chat.answer t /\
    Chat.pageNumbers t' = Chat.pageNumbers t.
Proof.
  induction l as [|c rest IH]; simpl; [intros []|].
  destruct (Chat.messageId c =? mid)%string; simpl.
  - intros [E|H]; [exists c; subst t' | exists t']; simpl; intuition.
  - intros [E|H]; [exists c; subst t'; intuition|].
    destruct (IH H) as (t & Hin & Hrest). exists t. intuition.
Qed.

Lemma cacheCoherent_feedback (mid : string) (r : Z) (l : list Chat.t) :
  cacheCoherent l -> cacheCoherent (findOneAndUpdateRating mid r l).
Proof.
  intros Hinv t' Hin Hs.
  destruct (findOneAndUpdateRating_In _ _ _ _ Hin) as (t & Ht & Hq & Hsu & Ha & Hp).
  rewrite Hsu in Hs. destruct (Hinv t Ht Hs) as (m & Hf & Hma & Hmp).
  destruct (findOneAndUpdateRating_find mid r _ _ _ Hf) as (m' & Hf' & Ha' & Hp').
  exists m'. rewrite Hq. split; [exact Hf' | split; congruence].
Qed.

Lemma reachable_cacheCoherent (collection : list Chat.t) :
  reachable formatResponse dropPageReferences collection ->
  cacheCoherent collection.
Proof.
  induction 1 as [| env q sid w _ IH | mid r l _ IH].
  - intros t [].
  - now apply cacheCoherent_getAnswer.
  - now apply cacheCoherent_feedback.
Qed.

(** C1.  On a collection the server has built, with a working store: a
    request whose normalized question equals that of a stored turn with
    [success = true] is answered with the [answer] and [pageNumbers] of
    that turn, unchanged, and marked [consistent]; during the request
    neither [similaritySearch] nor [llm.invoke] is called (this last
    part also when the write of the replayed turn is rejected). *)
Theorem cache_hit_replays_stored_turn
        (env : Env) (q sid : string) (w : World) (prior : Chat.t) :
  reachable formatResponse dropPageReferences (chats w) ->
  chatModelRegistered env = true ->
  findOneFails env = false ->
  In prior (chats w) ->
  Chat.success prior = true ->
  normalized (Chat.question prior) = normalized q ->
  trace (snd (getAnswer env q sid w)) = trace w /\
  (saveFails env = false ->
   fst (getAnswer env q sid w) =
   Returned (Response.mk (uuidv4 env) (Chat.answer prior)
                         (Chat.pageNumbers prior) (Some true))).
Proof.
  intros Hreach Hreg Hfind Hin Hsucc Hnorm.
  destruct (reachable_cacheCoherent _ Hreach prior Hin Hsucc) as (m & Hf & Ha & Hp).
  rewrite Hnorm in Hf.
  destruct (saveFails env) eqn:Hsave.
  - split; [|discriminate].
    now apply (getAnswer_cache_hit_save_rejected env q sid w m).
  - rewrite (getAnswer_cache_hit env q sid w m Hreg Hfind Hf Hsave). simpl.
    split; [reflexivity|]. intros _. now rewrite Ha, Hp.
Qed.

Lemma filter_isLlmInvoke_search (env : Env) (q : string) (tr : list Event) :
  filter isLlmInvoke
         (tr ++ match vectorStore env with
                | None => []
                | Some _ => [SimilaritySearch q 5]
                end) = filter isLlmInvoke tr.
Proof.
  rewrite filter_app. destruct (vectorStore env); simpl; apply app_nil_r.
Qed.

(** C2.  A request that misses the cache and whose retrieval leaves the
    context empty never calls [llm.invoke], and every turn it writes has
    [success = false]; when the write of the turn goes through, the
    answer returned and stored is the fixed "Information Not Available"
    text. *)
Theorem empty_context_short_circuits (env : Env) (q sid : string) (w : World) :
  chatModelRegistered env = true ->
  findOneFails env = false ->
  find (matchesQuestion (normalized q)) (chats w) = None ->
  findFails env = false ->
  fst (retrieved env q) = "" ->
  filter isLlmInvoke (trace (snd (getAnswer env q sid w))) =
    filter isLlmInvoke (trace w) /\
  (exists new,
      chats (snd (getAnswer env q sid w)) = (chats w ++ new)%list /\
      Forall (fun t => Chat.success t = false) new) /\
  (saveFails env = false ->
   fst (getAnswer env q sid w) =
     Returned (Response.mk (uuidv4 env) notAvailableAnswer
                           (snd (retrieved env q)) None) /\
   chats (snd (getAnswer env q sid w)) =
     (chats w ++ [Chat.mk sid (uuidv4 env) (normalized q) notAvailableAnswer
                          (snd (retrieved env q)) None false (now env)])%list).
Proof.
  intros H1 H2 H3 H4 H5.
  destruct (saveFails env) eqn:H6.
  - unfold normalized in *. js_unfold.
    rewrite H1, H2. simpl. rewrite H3, H4. simpl.
    rewrite vectorSearch_spec.
    destruct (retrieved env q) as [ctx pages]. simpl in H5. subst ctx. simpl.
    rewrite H6. simpl.
    destruct (errorSaveFails env); simpl;
      (split; [apply filter_isLlmInvoke_search|]);
      (split; [|discriminate]).
    + exists []. split; [symmetry; apply app_nil_r | constructor].
    + eexists. split; [reflexivity | now repeat constructor].
  - rewrite (getAnswer_not_available env q sid w H1 H2 H3 H4 H5 H6). simpl.
    split; [apply filter_isLlmInvoke_search|].
    split; [|intros _; now split].
    eexists. split; [reflexivity | now repeat constructor].
Qed.

(** C7, as the code has it.  On a cache hit with a working store the
    request does write: exactly one turn is appended to the collection,
    the replay of the cached answer under the trimmed question with
    [success = true]; the turns already stored, the ingestion records,
    the index and the trace of service calls are left as they were. *)
Theorem cache_hit_appends_replayed_turn
        (env : Env) (q sid : string) (w : World) (m : Chat.t) :
  chatModelRegistered env = true ->
  findOneFails env = false ->
  find (matchesQuestion (normalized q)) (chats w) = Some m ->
  saveFails env = false ->
  let w' := snd (getAnswer env q sid w) in
  chats w' =
    (chats w ++ [Chat.mk sid (uuidv4 env) (trim q) (Chat.answer m)
                         (Chat.pageNumbers m) None true (now env)])%list /\
  processedPDFs w' = processedPDFs w /\
  vectors w' = vectors w /\
  trace w' = trace w.
Proof.
  intros H1 H2 H3 H4.
  rewrite (getAnswer_cache_hit env q sid w m H1 H2 H3 H4). simpl.
  repeat split.
Qed.

(** C9.  Every turn a request writes, unless it is the replay of a
    cached turn, carries as [success] the verdict of [isErrorResponse]
    on its own answer: if the answer contains one of the failure
    phrases, letter case ignored, the turn is stored with
    [success = false]. *)
Theorem failure_phrases_mark_turn_unsuccessful
        (env : Env) (q sid : string) (w : World) :
  exists new,
    chats (snd (getAnswer env q sid w)) = (chats w ++ new)%list /\
    Forall
      (fun t =>
         (exists m,
             find (matchesQuestion (normalized q)) (chats w) = Some m /\
             t = Chat.mk sid (uuidv4 env) (trim q) (Chat.answer m)
                         (Chat.pageNumbers m) None true (now env))
         \/ (Chat.success t = negb (isErrorResponse (Chat.answer t)) /\
             forall phrase,
               In phrase errorPatterns ->
               containsIgnoringCase (Chat.answer t) phrase ->
               Chat.success t = false))
      new.
Proof.
  destruct (getAnswer_effect env q sid w)
    as (resp & new & evs & _ & Hc & _ & _ & _ & _ & Hturn & _).
  exists new. split; [exact Hc|].
  eapply Forall_impl; [|exact Hturn].
  intros t [Hreplay|(_ & Hs & _)]; [now left | right].
  split; [exact Hs|]. intros phrase Hin Hcontains.
  rewrite Hs.
  assert (isErrorResponse (Chat.answer t) = true) as ->; [|reflexivity].
  apply isErrorResponse_spec. now exists phrase.
Qed.

(** C10.  With a working store, the turn written on a cache hit stores
    the question trimmed, letter case kept; the turn written on a cache
    miss stores it trimmed and lowercased. *)
Theorem stored_question_differs_by_path (env : Env) (q sid : string) (w : World) :
  chatModelRegistered env = true ->
  findOneFails env = false ->
  saveFails env = false ->
  (forall m,
      find (matchesQuestion (normalized q)) (chats w) = Some m ->
      exists t,
        chats (snd (getAnswer env q sid w)) = (chats w ++ [t])%list /\
        Chat.question t = trim q) /\
  (find (matchesQuestion (normalized q)) (chats w) = None ->
   findFails env = false ->
   exists t,
     chats (snd (getAnswer env q sid w)) = (chats w ++ [t])%list /\
     Chat.question t = toLowerCase (trim q)).
Proof.
  intros H1 H2 H3. split.
  - intros m Hf. rewrite (getAnswer_cache_hit env q sid w m H1 H2 Hf H3). simpl.
    eexists. split; reflexivity.
  - intros Hf H4.
    destruct (getAnswer_cache_miss env q sid w H1 H2 Hf H4 H3)
      as (answer & isSuccess & _ & Hc).
    rewrite Hc. eexists. split; reflexivity.
Qed.

(** *** The context window *)



End AnswerFacts.

(** ** The ingestion pipeline *)

Ltac ingest_unfold :=
  unfold Ingest.processIfNew, Ingest.ProcessedPDF_model,
    Ingest.ProcessedPDF_findOne, Ingest.ProcessedPDF_save,
    Ingest.PineconeStore_fromDocuments,
    bind, tryCatch, ret, throw, failWhen, orThrow, emit in *.

Lemma find_None_filter {A : Type} (f : A -> bool) (l : list A) :
  find f l = None <-> List.length (filter f l) = 0%nat.
Proof.
  induction l as [|x r IH]; simpl; [tauto|].
  destruct (f x); simpl; [split; discriminate | exact IH].
Qed.

Lemma nth_error_mapIndexFrom {A B : Type} (f : A -> Z -> B) (l : list A)
      (start : Z) (i : nat) :
  nth_error (JsArray.mapIndexFrom f start l) i =
  option_map (fun x => f x (start + Z.of_nat i)) (nth_error l i).
Proof.
  revert start i. induction l as [|x r IH]; intros start [|i]; simpl;
    try reflexivity.
  - now rewrite Z.add_0_r.
  - rewrite IH. destruct (nth_error r i); simpl; [|reflexivity].
    do 2 f_equal. lia.
Qed.

Section IngestFacts.
Import JsArray Ingest.

(** The rounding of JavaScript numbers keeps the sign of what it rounds
    (no underflow at the sizes of documents). *)
Variable fl : Q -> Q.
Hypothesis fl_sign :
  forall x : Q, ((0 <= x -> 0 <= fl x) /\ (0 < x -> 0 < fl x))%Q.

Lemma estimatedPage_positive (index textLength numpages : Z) :
  0 <= index -> 0 < textLength -> 1 <= numpages ->
  1 <= estimatedPage fl index textLength numpages.
Proof.
  intros Hi Hl Hp. unfold estimatedPage.
  assert (0 <= fl (inject_Z (index * 1000)))%Q as Hnum.
  { apply fl_sign. change 0%Q with (inject_Z 0). rewrite <- Zle_Qle. lia. }
  assert (0 <= fl (inject_Z textLength / inject_Z numpages))%Q as Hden.
  { apply fl_sign. apply Qmult_le_0_compat; [|apply Qinv_le_0_compat];
      change 0%Q with (inject_Z 0); rewrite <- Zle_Qle; lia. }
  assert (0 <= fl (fl (inject_Z (index * 1000))
                   / fl (inject_Z textLength / inject_Z numpages)))%Q as Hq.
  { apply fl_sign. apply Qmult_le_0_compat; [exact Hnum|].
    now apply Qinv_le_0_compat. }
  apply Qfloor_resp_le in Hq. change (Qfloor 0) with 0 in Hq. lia.
Qed.

Lemma pageNumberOf_clamped (index textLength numpages : Z) :
  0 <= index -> 0 < textLength -> 1 <= numpages ->
  pageNumberOf fl index textLength numpages =
    specEstimatedPage fl index textLength numpages /\
  1 <= pageNumberOf fl index textLength numpages <= numpages.
Proof.
  intros Hi Hl Hp.
  pose proof (estimatedPage_positive index textLength numpages Hi Hl Hp) as H.
  unfold pageNumberOf, specEstimatedPage, clamp, averageCharsPerPage,
    targetChunkLength.
  fold (estimatedPage fl index textLength numpages). lia.
Qed.

(** C4.  For a document with non-empty text and [numpages >= 1], the
    chunk at ordinal index [i] is stored with [chunkIndex = i] and with
    the page number
    [floor(i * 1000 / (textLength / numpages)) + 1] clamped to
    [[1, numpages]]; the code only takes the minimum with [numpages],
    which is the same, the estimate being at least 1.  So the page
    number lies in [[1, numpages]]. *)
Theorem chunk_page_estimate_clamped
        (filename : string) (fileSize : Z) (pdfData : PdfData)
        (docs : list string) (i : nat) (d : Document.t) :
  text pdfData <> ""%string ->
  1 <= numpages pdfData ->
  nth_error (langchainDocs fl filename fileSize pdfData docs) i = Some d ->
  let totalTextLength := Z.of_nat (String.length (text pdfData)) in
  let totalPages := numpages pdfData in
  Document.chunkIndex (Document.metadata d) = Z.of_nat i /\
  Document.pageNumber (Document.metadata d) =
    specEstimatedPage fl (Z.of_nat i) totalTextLength totalPages /\
  1 <= Document.pageNumber (Document.metadata d) <= totalPages.
Proof.
  intros Htext Hpages Hnth. simpl.
  unfold langchainDocs, mapIndex in Hnth.
  rewrite nth_error_mapIndexFrom in Hnth.
  destruct (nth_error docs i) as [doc|]; [|discriminate].
  injection Hnth as <-. simpl.
  assert (0 < Z.of_nat (String.length (text pdfData))) as Hlen
      by (destruct (text pdfData); [congruence | simpl; lia]).
  split; [reflexivity|].
  apply pageNumberOf_clamped; [lia | exact Hlen | exact Hpages].
Qed.
End IngestFacts.

Section LedgerFacts.
Import JsArray Ingest.
Variable fl : Q -> Q.

Local Abbreviation processIfNew := (Ingest.processIfNew fl).

(** [processIfNew] catches whatever is thrown inside it. *)
Lemma processIfNew_returns (env : Env) (filename : string) (w : World) :
  fst (processIfNew env filename w) = Returned tt.
Proof.
  ingest_unfold.
  destruct (statSync env); simpl; [|reflexivity].
  destruct (pdfModelRegistered env), (findOneFails env); simpl;
    try destruct (find _ _); simpl; try reflexivity;
    destruct (readAndParse env); simpl; try reflexivity;
    destruct (fromDocumentsFails env); simpl; try reflexivity;
    destruct (saveFails env); reflexivity.
Qed.


(** The document is indexed when the lookup finds no record, or fails;
    the record is written unless the model is missing or the write is
    rejected, and nothing is thrown either way. *)
Lemma processIfNew_indexes (env : Env) (filename : string) (fileSize : Z)
      (pdfData : PdfData) (w : World) :
  statSync env = Some fileSize ->
  (pdfModelRegistered env = true -> findOneFails env = false ->
   recordsFor filename fileSize w = 0%nat) ->
  readAndParse env = Some pdfData ->
  fromDocumentsFails env = false ->
  let docs := langchainDocs fl filename fileSize pdfData
                            (createDocuments env (text pdfData)) in
  processIfNew env filename w =
  (Returned tt,
   mkWorld (chats w)
           (processedPDFs w ++
            if pdfModelRegistered env && negb (saveFails env)
            then [ProcessedPDF.mk filename fileSize (now env)
                                  (Z.of_nat (List.length docs))]
            else [])
           (vectors w ++ docs)
           (trace w ++ [FromDocuments docs])).
Proof.
  intros H1 H2 H3 H4 docs. subst docs. unfold recordsFor in H2.
  ingest_unfold. rewrite H1. simpl.
  destruct (pdfModelRegistered env) eqn:Hm, (findOneFails env) eqn:Hf; simpl;
    try rewrite (proj2 (find_None_filter _ _) (H2 eq_refl eq_refl));
    rewrite H3; simpl; rewrite H4; simpl;
    destruct (saveFails env); simpl; rewrite ?app_nil_r; reflexivity.
Qed.


Lemma indexerCalls_app (tr tr' : list Event) :
  indexerCalls (tr ++ tr') = (indexerCalls tr + indexerCalls tr')%nat.
Proof. unfold indexerCalls. now rewrite filter_app, length_app. Qed.


(** C6, as the code has it.  When the record cannot be written after a
    document was indexed (the model is missing or [save] rejects),
    nothing reaches the caller: [processIfNew] returns normally and the
    loop of [processPDFs] goes on with the next file.  The passages
    stay in the index and no record is written, so the document is not
    taken for processed: the same call on the resulting store indexes
    it again. *)
Theorem record_write_failure_is_swallowed
        (env : Env) (filename : string) (fileSize : Z)
        (pdfData : PdfData) (w : World) :
  statSync env = Some fileSize ->
  recordsFor filename fileSize w = 0%nat ->
  readAndParse env = Some pdfData ->
  fromDocumentsFails env = false ->
  pdfModelRegistered env = false \/ saveFails env = true ->
  let docs := langchainDocs fl filename fileSize pdfData
                            (createDocuments env (text pdfData)) in
  let w' := mkWorld (chats w) (processedPDFs w) (vectors w ++ docs)
                    (trace w ++ [FromDocuments docs]) in
  processIfNew env filename w = (Returned tt, w') /\
  (forall rest,
      processPDFs fl ((filename, env) :: rest) w = processPDFs fl rest w') /\
  recordsFor filename fileSize w' = 0%nat /\
  indexerCalls (trace (snd (processIfNew env filename w'))) =
    (indexerCalls (trace w) + 2)%nat.
Proof.
  intros H1 H2 H3 H4 H5 docs w'.
  assert (pdfModelRegistered env && negb (saveFails env) = false) as Hrec
      by (destruct H5 as [-> | ->]; [reflexivity | apply andb_false_r]).
  assert (processIfNew env filename w = (Returned tt, w')) as Hrun.
  { rewrite (processIfNew_indexes env filename fileSize pdfData w H1
               (fun _ _ => H2) H3 H4).
    rewrite Hrec, app_nil_r. reflexivity. }
  split; [exact Hrun|]. split; [|split].
  - intros rest. simpl. unfold bind at 1. now rewrite Hrun.
  - exact H2.
  - rewrite (processIfNew_indexes env filename fileSize pdfData w' H1
               (fun _ _ => H2) H3 H4).
    rewrite Hrec. subst w'. simpl. rewrite !indexerCalls_app.
    unfold indexerCalls at 2 3. simpl. lia.
Qed.
End LedgerFacts.

(** ** The scenario, run *)

Section ScenarioRuns.
Import JsString JsArray Scenario.

Lemma afterFirstAsk_reachable :
  Answer.reachable verbatim verbatim (chats afterFirstAsk).
Proof.
  apply (Answer.reachable_getAnswer verbatim verbatim firstAsk
           "What is JCI?" "s-1" emptyStore).
  apply Answer.reachable_empty.
Qed.

Lemma exact_keeps_sign :
  forall x : Q, ((0 <= x -> 0 <= exact x) /\ (0 < x -> 0 < exact x))%Q.
Proof. intros x. split; intros H; exact H. Qed.

(** The question of the first turn, asked again in capitals from
    another session, gets the stored answer and pages back. *)
Lemma repeated_question_replayed :
  fst (Answer.getAnswer verbatim verbatim secondAsk "  WHAT is JCI? " "s-2"
                        afterFirstAsk) =
  Returned (Response.mk "m-2" "JCI is the Joint Commission International."
                        [1; 2] (Some true)).
Proof.
  refine (proj2 (cache_hit_replays_stored_turn verbatim verbatim secondAsk
                   "  WHAT is JCI? " "s-2" afterFirstAsk firstTurn
                   afterFirstAsk_reachable _ _ _ _ _) _).
  - reflexivity.
  - reflexivity.
  - vm_compute. left. reflexivity.
  - reflexivity.
  - vm_compute. reflexivity.
  - reflexivity.
Defined.

(** Asked before any document was ingested, a question is answered
    with the fixed text and stored as unsuccessful, with no page. *)
Lemma question_without_documents :
  fst (Answer.getAnswer verbatim verbatim noDocuments "What is JCI?" "s-3"
                        emptyStore) =
    Returned (Response.mk "m-3" Answer.notAvailableAnswer [] None) /\
  chats (snd (Answer.getAnswer verbatim verbatim noDocuments "What is JCI?"
                               "s-3" emptyStore)) =
    [Chat.mk "s-3" "m-3" "what is jci?" Answer.notAvailableAnswer [] None
             false 300].
Proof.
  refine (proj2 (proj2 (empty_context_short_circuits verbatim verbatim
                          noDocuments "What is JCI?" "s-3" emptyStore
                          _ _ _ _ _)) _).
  - reflexivity.
  - reflexivity.
  - reflexivity.
  - reflexivity.
  - reflexivity.
  - reflexivity.
Defined.

(** C7, as stated, fails: the repeated question is a cache hit, and the
    collection has one more turn after it. *)
Lemma cache_hit_changes_the_ledger :
  find (Answer.matchesQuestion (Answer.normalized "  WHAT is JCI? "))
       (chats afterFirstAsk) = Some firstTurn /\
  chats (snd (Answer.getAnswer verbatim verbatim secondAsk "  WHAT is JCI? "
                               "s-2" afterFirstAsk))
  <> chats afterFirstAsk.
Proof.
  split; [vm_compute; reflexivity | vm_compute; discriminate].
Qed.

Lemma repeated_question_appends_turn :
  chats (snd (Answer.getAnswer verbatim verbatim secondAsk "  WHAT is JCI? "
                               "s-2" afterFirstAsk)) =
  [firstTurn;
   Chat.mk "s-2" "m-2" "WHAT is JCI?"
           "JCI is the Joint Commission International." [1; 2] None true 200].
Proof.
  refine (proj1 (cache_hit_appends_replayed_turn verbatim verbatim secondAsk
                   "  WHAT is JCI? " "s-2" afterFirstAsk firstTurn
                   _ _ _ _)).
  - reflexivity.
  - reflexivity.
  - vm_compute. reflexivity.
  - reflexivity.
Defined.

(** The two turns of the scenario store the same question in two
    spellings. *)
Lemma repeated_question_stored_in_capitals :
  exists t,
    chats (snd (Answer.getAnswer verbatim verbatim secondAsk "  WHAT is JCI? "
                                 "s-2" afterFirstAsk)) =
      (chats afterFirstAsk ++ [t])%list /\
    Chat.question t = "WHAT is JCI?".
Proof.
  refine (proj1 (stored_question_differs_by_path verbatim verbatim secondAsk
                   "  WHAT is JCI? " "s-2" afterFirstAsk _ _ _)
                firstTurn _).
  - reflexivity.
  - reflexivity.
  - reflexivity.
  - vm_compute. reflexivity.
Defined.

(** The fourth chunk of the two-page document is attributed to page 2. *)
Lemma fourth_chunk_on_page_two :
  let d := Document.mk "chunk 3" (Document.mkMetadata "policy.pdf" 3 2 10240) in
  nth_error (Ingest.langchainDocs exact "policy.pdf" 10240 policyPdf
                                  (fiveChunks policyText)) 3 = Some d /\
  Document.pageNumber (Document.metadata d) =
    Ingest.specEstimatedPage exact 3 4000 2 /\
  1 <= Document.pageNumber (Document.metadata d) <= 2.
Proof.
  intros d.
  assert (nth_error (Ingest.langchainDocs exact "policy.pdf" 10240 policyPdf
                                          (fiveChunks policyText)) 3 = Some d)
    as Hnth by (vm_compute; reflexivity).
  split; [exact Hnth|].
  refine (proj2 (chunk_page_estimate_clamped exact exact_keeps_sign
                   "policy.pdf" 10240 policyPdf (fiveChunks policyText) 3 d
                   _ _ Hnth)).
  - vm_compute. discriminate.
  - vm_compute. discriminate.
Defined.


(** C6, as stated, fails: the write of the record is rejected after
    the document was indexed, and [processIfNew] returns normally. *)
Lemma rejected_record_write_does_not_throw :
  Ingest.saveFails ingestLedgerDown = true /\
  Ingest.indexerCalls
    (trace (snd (Ingest.processIfNew exact ingestLedgerDown "policy.pdf"
                                     emptyStore))) = 1%nat /\
  fst (Ingest.processIfNew exact ingestLedgerDown "policy.pdf" emptyStore)
    = Returned tt /\
  fst (Ingest.processIfNew exact ingestLedgerDown "policy.pdf" emptyStore)
    <> Thrown.
Proof.
  repeat split; try (vm_compute; reflexivity). vm_compute. discriminate.
Qed.

Lemma rejected_record_write_leaves_no_record :
  processedPDFs (snd (Ingest.processIfNew exact ingestLedgerDown "policy.pdf"
                                          emptyStore)) = [] /\
  fst (Ingest.processIfNew exact ingestLedgerDown "policy.pdf" emptyStore)
    = Returned tt.
Proof.
  pose proof (record_write_failure_is_swallowed exact ingestLedgerDown
                "policy.pdf" 10240 policyPdf emptyStore
                eq_refl eq_refl eq_refl eq_refl (or_intror eq_refl))
    as (Hrun & _).
  rewrite Hrun. split; reflexivity.
Defined.
End ScenarioRuns.

(* ================================================================== *)
(** * Further properties *)

(** ** [getAnswer]: what every call does *)

Section AnswerShape.
Import JsString JsArray Answer.
Variable formatResponse : string -> string.
Variable dropPageReferences : string -> string.

Local Abbreviation getAnswer :=
  (Answer.getAnswer formatResponse dropPageReferences).
Local Arguments isErrorResponse : simpl never.

Lemma retrieved_without_store (env : Env) (q : string) :
  vectorStore env = None -> retrieved env q = ("", []).
Proof. unfold retrieved. now intros ->. Qed.

(** The turn a call writes agrees with the response it returns, and its
    pages are those of the cached turn, those just retrieved, or none;
    the services are called in the order search, then generation. *)
Lemma getAnswer_shape (env : Env) (q sid : string) (w : World) :
  exists resp new evs,
    fst (getAnswer env q sid w) = Returned resp /\
    chats (snd (getAnswer env q sid w)) = (chats w ++ new)%list /\
    trace (snd (getAnswer env q sid w)) = (trace w ++ evs)%list /\
    Response.messageId resp = uuidv4 env /\
    Forall
      (fun t =>
         Chat.sessionId t = sid /\ Chat.messageId t = uuidv4 env /\
         Chat.rating t = None /\ Chat.timestamp t = now env /\
         Chat.answer t = Response.answer resp /\
         Chat.pageNumbers t = Response.pageNumbers resp /\
         ((exists m,
              find (matchesQuestion (normalized q)) (chats w) = Some m /\
              Chat.pageNumbers t = Chat.pageNumbers m)
          \/ Chat.pageNumbers t = snd (retrieved env q)
          \/ Chat.pageNumbers t = []))
      new /\
    (evs = [] \/
     evs = [SimilaritySearch q 5] \/
     exists p, evs = [SimilaritySearch q 5; LlmInvoke p]).
Proof.
  unfold normalized. js_unfold.
  repeat js_step.
  all: do 3 eexists.
  all: simpl; rewrite <- ?app_assoc.
  all: (split; [reflexivity|]).
  all: (split; [first [reflexivity | symmetry; apply app_nil_r]|]).
  all: (split; [first [reflexivity | symmetry; apply app_nil_r]|]).
  all: (split; [reflexivity|]).
  all: split;
    [ first [ apply Forall_nil | apply Forall_cons; [|apply Forall_nil] ] | ].
  all: try match goal with
           | Hs : vectorStore _ = None, Hr : retrieved _ _ = (String _ _, _) |- _ =>
               rewrite (retrieved_without_store _ _ Hs) in Hr; discriminate
           end.
  all: try solve [simpl; repeat (split; [reflexivity|]); eauto].
  all: try solve [eauto].
Qed.

(** [getAnswer] always returns a response.  It writes at most one turn;
    the turn carries the session id and the message id, answer and page
    numbers of the response, no rating, and the time of the call.  The
    turns stored before, the ingestion records and the index are left
    as they were. *)
Theorem getAnswer_always_responds (env : Env) (q sid : string) (w : World) :
  exists resp new,
    fst (getAnswer env q sid w) = Returned resp /\
    Response.messageId resp = uuidv4 env /\
    chats (snd (getAnswer env q sid w)) = (chats w ++ new)%list /\
    (List.length new <= 1)%nat /\
    processedPDFs (snd (getAnswer env q sid w)) = processedPDFs w /\
    vectors (snd (getAnswer env q sid w)) = vectors w /\
    Forall
      (fun t =>
         Chat.sessionId t = sid /\
         Chat.messageId t = Response.messageId resp /\
         Chat.answer t = Response.answer resp /\
         Chat.pageNumbers t = Response.pageNumbers resp /\
         Chat.rating t = None /\
         Chat.timestamp t = now env)
      new.
Proof.
  destruct (getAnswer_shape env q sid w)
    as (resp & new & evs & Hr & Hc & _ & Hid & Hturn & _).
  destruct (getAnswer_effect formatResponse dropPageReferences env q sid w)
    as (resp' & new' & evs' & _ & Hc' & Hp & Hv & _ & Hlen & _).
  assert (new' = new) as -> by (rewrite Hc in Hc'; now apply app_inv_head in Hc').
  exists resp, new. repeat (split; [assumption|]).
  eapply Forall_impl; [|exact Hturn]. cbv beta.
  intros t (H1 & H2 & H3 & H4 & H5 & H6 & _). rewrite Hid. now repeat split.
Qed.

(** During one request the retrieval service is called at most once,
    with the question as asked and [k = 5], and the model at most once,
    only after the search and only on a cache miss with the non-empty
    context the search produced. *)
Theorem generation_only_after_retrieval (env : Env) (q sid : string) (w : World) :
  exists evs,
    trace (snd (getAnswer env q sid w)) = (trace w ++ evs)%list /\
    (evs = [] \/
     evs = [SimilaritySearch q 5] \/
     (evs = [SimilaritySearch q 5;
             LlmInvoke (mkPrompt (fst (retrieved env q))
                          (historyOrDefault
                             (conversationHistory (findRecent sid (chats w))))
                          q)] /\
      truthy (fst (retrieved env q)) = true /\
      find (matchesQuestion (normalized q)) (chats w) = None)).
Proof.
  destruct (getAnswer_shape env q sid w)
    as (resp & new & evs & _ & _ & Ht & _ & _ & Hevs).
  destruct (getAnswer_effect formatResponse dropPageReferences env q sid w)
    as (resp' & new' & evs' & _ & _ & _ & _ & Ht' & _ & _ & Hok).
  assert (evs' = evs) as -> by (rewrite Ht in Ht'; now apply app_inv_head in Ht').
  exists evs. split; [exact Ht|].
  destruct Hevs as [->|[->|(p & ->)]]; [now left | now right; left |].
  right; right.
  apply Forall_inv_tail, Forall_inv in Hok. destruct Hok as (Hnone & Hctx & ->).
  now repeat split.
Qed.

(** *** Failure paths *)

(** The cache-miss path with a non-empty context and a working store. *)
Lemma getAnswer_generated (env : Env) (q sid : string) (w : World)
      (pages : list Z) (c : ascii) (ctx : string) :
  chatModelRegistered env = true ->
  findOneFails env = false ->
  find (matchesQuestion (normalized q)) (chats w) = None ->
  findFails env = false ->
  retrieved env q = (String c ctx, pages) ->
  saveFails env = false ->
  let promptText :=
    mkPrompt (String c ctx)
             (historyOrDefault (conversationHistory (findRecent sid (chats w))))
             q in
  let answer :=
    match llm env promptText with
    | Some content => trim (dropPageReferences (formatResponse content))
    | None => errorAnswer
    end in
  let isSuccess :=
    match llm env promptText with
    | Some _ => negb (isErrorResponse answer)
    | None => false
    end in
  getAnswer env q sid w =
  (Returned (Response.mk (uuidv4 env) answer pages None),
   mkWorld (chats w ++ [Chat.mk sid (uuidv4 env) (normalized q) answer pages
                                None isSuccess (now env)])
           (processedPDFs w) (vectors w)
           (trace w ++ [SimilaritySearch q 5; LlmInvoke promptText])).
Proof.
  unfold normalized. intros H1 H2 H3 H4 H5 H6. simpl. js_unfold.
  rewrite H1, H2. simpl. rewrite H3, H4. simpl.
  rewrite vectorSearch_spec, H5. simpl.
  assert (vectorStore env <> None) as Hs
      by (intros Hn; rewrite (retrieved_without_store _ _ Hn) in H5; discriminate).
  destruct (vectorStore env); [|congruence]. simpl.
  destruct (llm env _); simpl; rewrite H6; simpl; rewrite <- ?app_assoc.
  - destruct (isErrorResponse _); reflexivity.
  - reflexivity.
Qed.

(** When [llm.invoke] throws, the request still returns normally: the
    response is the error answer together with the pages that were
    retrieved, and the turn is stored with [success = false]. *)
Theorem generation_failure_answers_error
        (env : Env) (q sid : string) (w : World)
        (pages : list Z) (c : ascii) (ctx : string) :
  chatModelRegistered env = true ->
  findOneFails env = false ->
  find (matchesQuestion (normalized q)) (chats w) = None ->
  findFails env = false ->
  retrieved env q = (String c ctx, pages) ->
  saveFails env = false ->
  llm env (mkPrompt (String c ctx)
             (historyOrDefault (conversationHistory (findRecent sid (chats w))))
             q) = None ->
  fst (getAnswer env q sid w) =
    Returned (Response.mk (uuidv4 env) errorAnswer pages None) /\
  chats (snd (getAnswer env q sid w)) =
    (chats w ++ [Chat.mk sid (uuidv4 env) (normalized q) errorAnswer pages
                         None false (now env)])%list.
Proof.
  intros H1 H2 H3 H4 H5 H6 H7.
  rewrite (getAnswer_generated env q sid w pages c ctx H1 H2 H3 H4 H5 H6).
  rewrite H7. now split.
Qed.

(** *** The cache over time *)

Lemma find_matchesQuestion (k : string) (l : list Chat.t) (m : Chat.t) :
  find (matchesQuestion k) l = Some m ->
  In m l /\ Chat.question m = k /\ Chat.success m = true.
Proof.
  intros H. apply find_some in H as [Hin Hm].
  unfold matchesQuestion in Hm. apply andb_true_iff in Hm as [Hq Hs].
  apply String.eqb_eq in Hq. now repeat split.
Qed.

Lemma reachable_successful_clean (l : list Chat.t) :
  reachable formatResponse dropPageReferences l ->
  forall t, In t l -> Chat.success t = true ->
            isErrorResponse (Chat.answer t) = false.
Proof.
  induction 1 as [| env q sid w _ IH | mid r l _ IH]; intros t Hin Hs.
  - destruct Hin.
  - destruct (getAnswer_effect formatResponse dropPageReferences env q sid w)
      as (resp & new & evs & _ & Hc & _ & _ & _ & _ & Hturn & _).
    rewrite Hc in Hin. apply in_app_iff in Hin as [Hold|Hnew]; [now apply IH|].
    rewrite Forall_forall in Hturn.
    destruct (Hturn t Hnew) as [(m & Hf & ->)|(_ & Hv & _)]; simpl.
    + apply find_matchesQuestion in Hf as (Hin & _ & Hms). now apply IH.
    + rewrite Hs in Hv. now destruct (isErrorResponse (Chat.answer t)).
  - destruct (findOneAndUpdateRating_In formatResponse dropPageReferences _ _ _ _ Hin) as (t0 & Hin0 & _ & Hs0 & Ha & _).
    rewrite Ha. apply IH; [exact Hin0 | congruence].
Qed.

(** On every collection the server builds, a turn stored with
    [success = true] holds an answer in which [isErrorResponse] finds
    none of the failure phrases: the cache never replays a failure
    answer. *)
Theorem successful_turns_hold_no_failure_phrase (l : list Chat.t) (t : Chat.t) :
  reachable formatResponse dropPageReferences l ->
  In t l ->
  Chat.success t = true ->
  isErrorResponse (Chat.answer t) = false /\
  forall phrase,
    In phrase errorPatterns -> ~ containsIgnoringCase (Chat.answer t) phrase.
Proof.
  intros Hreach Hin Hs.
  pose proof (reachable_successful_clean l Hreach t Hin Hs) as Hclean.
  split; [exact Hclean|]. intros phrase Hp Hc.
  assert (isErrorResponse (Chat.answer t) = true) as Hyes
      by (apply isErrorResponse_spec; now exists phrase).
  congruence.
Qed.

Lemma retrieved_pages_ascending (env : Env) (q : string) :
  StronglySorted Z.lt (snd (retrieved env q)) /\
  Forall (fun page => 0 < page) (snd (retrieved env q)).
Proof.
  unfold retrieved.
  destruct (vectorStore env) as [search|]; [destruct (search q 5)|]; simpl;
    try (split; constructor).
  split; [apply pageNumbersOf_ascending|].
  apply Forall_forall. intros p Hp. now apply pageNumbersOf_In in Hp.
Qed.

(** On every collection the server builds, the page numbers stored in a
    turn are strictly ascending, so without duplicates, and all
    positive. *)
Theorem stored_pageNumbers_ascending_positive (l : list Chat.t) (t : Chat.t) :
  reachable formatResponse dropPageReferences l ->
  In t l ->
  StronglySorted Z.lt (Chat.pageNumbers t) /\
  Forall (fun page => 0 < page) (Chat.pageNumbers t).
Proof.
  intros Hreach. revert t.
  induction Hreach as [| env q sid w _ IH | mid r l _ IH]; intros t Hin.
  - destruct Hin.
  - destruct (getAnswer_shape env q sid w)
      as (resp & new & evs & _ & Hc & _ & _ & Hturn & _).
    rewrite Hc in Hin. apply in_app_iff in Hin as [Hold|Hnew]; [now apply IH|].
    rewrite Forall_forall in Hturn.
    destruct (Hturn t Hnew) as (_ & _ & _ & _ & _ & _ & Hpages).
    destruct Hpages as [(m & Hf & ->)|[->| ->]].
    + apply find_matchesQuestion in Hf as (Hm & _). now apply IH.
    + apply retrieved_pages_ascending.
    + split; constructor.
  - destruct (findOneAndUpdateRating_In formatResponse dropPageReferences _ _ _ _ Hin) as (t0 & Hin0 & _ & _ & _ & Hp).
    rewrite Hp. now apply IH.
Qed.

(** Round trip through the cache.  After a question was answered by
    generation and stored as successful, any question with the same
    normalized text, from any session, is answered with exactly that
    answer and those pages, marked consistent, and no service is
    called. *)
Theorem answered_question_is_replayed
        (env env2 : Env) (q q2 sid sid2 : string) (w : World)
        (pages : list Z) (c : ascii) (ctx content : string) :
  chatModelRegistered env = true ->
  findOneFails env = false ->
  find (matchesQuestion (normalized q)) (chats w) = None ->
  findFails env = false ->
  retrieved env q = (String c ctx, pages) ->
  saveFails env = false ->
  llm env (mkPrompt (String c ctx)
             (historyOrDefault (conversationHistory (findRecent sid (chats w))))
             q) = Some content ->
  isErrorResponse (trim (dropPageReferences (formatResponse content))) = false ->
  chatModelRegistered env2 = true ->
  findOneFails env2 = false ->
  saveFails env2 = false ->
  normalized q2 = normalized q ->
  let w1 := snd (getAnswer env q sid w) in
  fst (getAnswer env2 q2 sid2 w1) =
    Returned (Response.mk (uuidv4 env2)
                (trim (dropPageReferences (formatResponse content)))
                pages (Some true)) /\
  trace (snd (getAnswer env2 q2 sid2 w1)) = trace w1.
Proof.
  intros H1 H2 H3 H4 H5 H6 H7 H8 G1 G2 G3 Hq w1.
  set (answer := trim (dropPageReferences (formatResponse content))) in *.
  set (t := Chat.mk sid (uuidv4 env) (normalized q) answer pages None true
                    (now env)).
  assert (chats w1 = (chats w ++ [t])%list) as Hw1.
  { subst w1.
    rewrite (getAnswer_generated env q sid w pages c ctx H1 H2 H3 H4 H5 H6).
    rewrite H7. fold answer. rewrite H8. reflexivity. }
  assert (find (matchesQuestion (normalized q2)) (chats w1) = Some t) as Hf.
  { rewrite Hw1, Hq. rewrite (find_app_None _ _ _ H3). simpl.
    unfold matchesQuestion. simpl. rewrite String.eqb_refl. reflexivity. }
  rewrite (getAnswer_cache_hit formatResponse dropPageReferences
             env2 q2 sid2 w1 t G1 G2 Hf G3).
  now split.
Qed.

End AnswerShape.

(** ** [isErrorResponse] *)

Section ClassifierFacts.
Import JsString Answer.

(** An answer is flagged as soon as it mentions one of the failure
    phrases anywhere, in whatever letter case: so is, for instance,
    every answer with a heading that begins with "## Error". *)
Theorem answer_mentioning_failure_phrase_is_flagged
        (phrase mention before after : string) :
  In phrase errorPatterns ->
  toLowerCase mention = toLowerCase phrase ->
  isErrorResponse (before ++ mention ++ after) = true.
Proof.
  intros Hin Hcase. apply isErrorResponse_spec. exists phrase.
  split; [exact Hin|].
  exists (toLowerCase before), (toLowerCase after).
  now rewrite !toLowerCase_app, Hcase.
Qed.
End ClassifierFacts.

(** ** Ratings and the routes of server.js *)

Section RatingFacts.
Import JsString JsArray Answer.


End RatingFacts.

Section RouteFacts.
Import JsString JsArray Answer.
Variable formatResponse : string -> string.
Variable dropPageReferences : string -> string.

(** POST /api/chat never answers 500.  A body without a message or
    without a session id is refused with 400 and nothing happens;
    otherwise the reply is 200 and carries the response of [getAnswer],
    also when that response is an error text. *)
Theorem chatRoute_never_fails
        (env : Env) (body : Server.ChatBody) (w : World) :
  exists reply,
    fst (Server.chatRoute formatResponse dropPageReferences env body w)
      = Returned reply /\
    Server.statusOf reply <> 500 /\
    (Server.missingText (Server.message body)
     || Server.missingText (Server.sessionId body) = true ->
     reply = Server.Failed 400 "Message and sessionId required" /\
     snd (Server.chatRoute formatResponse dropPageReferences env body w) = w) /\
    (Server.missingText (Server.message body)
     || Server.missingText (Server.sessionId body) = false ->
     exists resp,
       reply = Server.Answered resp /\
       Server.chatRoute formatResponse dropPageReferences env body w =
       (Returned reply,
        snd (getAnswer formatResponse dropPageReferences env
               (Server.textOf (Server.message body))
               (Server.textOf (Server.sessionId body)) w)) /\
       fst (getAnswer formatResponse dropPageReferences env
              (Server.textOf (Server.message body))
              (Server.textOf (Server.sessionId body)) w) = Returned resp).
Proof.
  unfold Server.chatRoute.
  destruct (Server.missingText (Server.message body)
            || Server.missingText (Server.sessionId body)).
  - eexists. unfold tryCatch, ret. simpl.
    split; [reflexivity|]. split; [discriminate|].
    split; [now split | discriminate].
  - destruct (getAnswer_effect formatResponse dropPageReferences env
                (Server.textOf (Server.message body))
                (Server.textOf (Server.sessionId body)) w)
      as (resp & _ & _ & Hr & _).
    unfold tryCatch, bind, ret.
    destruct (getAnswer formatResponse dropPageReferences env
                (Server.textOf (Server.message body))
                (Server.textOf (Server.sessionId body)) w) as [o w'] eqn:E.
    simpl in Hr. subst o. simpl.
    eexists. split; [reflexivity|]. split; [discriminate|].
    split; [discriminate|]. intros _. exists resp. now repeat split.
Qed.

End RouteFacts.

(** ** Ingestion: what every call does *)

Section BatchFacts.
Import JsString JsArray Ingest.
Variable fl : Q -> Q.

Local Abbreviation processIfNew := (Ingest.processIfNew fl).

Lemma langchainDocs_source (filename : string) (fileSize : Z)
      (pdfData : PdfData) (docs : list string) :
  Forall (fun d => Document.source (Document.metadata d) = filename)
         (langchainDocs fl filename fileSize pdfData docs).
Proof.
  apply Forall_forall. intros d Hin.
  apply In_nth_error in Hin as [i Hi].
  unfold langchainDocs, mapIndex in Hi. rewrite nth_error_mapIndexFrom in Hi.
  destruct (nth_error docs i); [|discriminate]. now injection Hi as <-.
Qed.

(** What one call of [processIfNew] can do to the store. *)
Lemma processIfNew_shape (env : Env) (filename : string) (w : World) :
  exists records added evs,
    fst (processIfNew env filename w) = Returned tt /\
    chats (snd (processIfNew env filename w)) = chats w /\
    processedPDFs (snd (processIfNew env filename w)) =
      (processedPDFs w ++ records)%list /\
    vectors (snd (processIfNew env filename w)) = (vectors w ++ added)%list /\
    trace (snd (processIfNew env filename w)) = (trace w ++ evs)%list /\
    (records = [] \/
     exists fileSize,
       statSync env = Some fileSize /\
       fromDocumentsFails env = false /\
       evs = [FromDocuments added] /\
       records = [ProcessedPDF.mk filename fileSize (now env)
                                  (Z.of_nat (List.length added))]) /\
    (evs = [] /\ added = [] \/
     exists docs,
       evs = [FromDocuments docs] /\ (added = docs \/ added = []) /\
       Forall (fun d => Document.source (Document.metadata d) = filename) docs).
Proof.
  ingest_unfold.
  destruct (statSync env) as [fileSize|]; simpl.
  2:{ exists [], [], []. rewrite !app_nil_r. repeat split; auto. }
  destruct (pdfModelRegistered env) eqn:Hm, (findOneFails env) eqn:Hf; simpl;
    try destruct (find _ (processedPDFs w)); simpl;
    try (exists [], [], []; rewrite !app_nil_r; repeat split; auto; fail);
    destruct (readAndParse env) as [pdfData|]; simpl;
    try (exists [], [], []; rewrite !app_nil_r; repeat split; auto; fail);
    destruct (fromDocumentsFails env) eqn:Hi; simpl;
    try destruct (saveFails env); simpl.
  all: do 3 eexists.
  all: (split; [reflexivity|]).
  all: (split; [reflexivity|]).
  all: (split; [first [reflexivity | symmetry; apply app_nil_r]|]).
  all: (split; [first [reflexivity | symmetry; apply app_nil_r]|]).
  all: (split; [reflexivity|]).
  all: split;
    [ first [ now left
            | right; exists fileSize; repeat split; reflexivity ]
    | right; eexists; split; [reflexivity|]; split;
      [ first [ now left | now right ] | apply langchainDocs_source ] ].
Qed.

(** [processIfNew] always returns and only ever adds: it leaves the
    turns alone, appends at most one ingestion record and only passages
    of this file to the index.  A record is written only after
    [fromDocuments] went through, and then it carries the file name, the
    size read from disk and as [chunksCount] the number of passages
    added. *)
Theorem processIfNew_only_adds (env : Env) (filename : string) (w : World) :
  exists records added,
    fst (processIfNew env filename w) = Returned tt /\
    chats (snd (processIfNew env filename w)) = chats w /\
    processedPDFs (snd (processIfNew env filename w)) =
      (processedPDFs w ++ records)%list /\
    vectors (snd (processIfNew env filename w)) = (vectors w ++ added)%list /\
    Forall (fun d => Document.source (Document.metadata d) = filename) added /\
    (records = [] \/
     exists fileSize,
       statSync env = Some fileSize /\
       fromDocumentsFails env = false /\
       records = [ProcessedPDF.mk filename fileSize (now env)
                                  (Z.of_nat (List.length added))]).
Proof.
  destruct (processIfNew_shape env filename w)
    as (records & added & evs & H1 & H2 & H3 & H4 & _ & Hrec & Hev).
  exists records, added. repeat (split; [assumption|]). split.
  - destruct Hev as [(_ & ->)|(docs & _ & [->| ->] & Hsrc)];
      [constructor | exact Hsrc | constructor].
  - destruct Hrec as [->|(fileSize & Hs & Hi & _ & ->)]; [now left|].
    right. now exists fileSize.
Qed.

End BatchFacts.

(** ** The scenario, continued *)

Section WalkthroughRuns.
Import JsString JsArray Scenario Walkthrough.

(** The model throws: the error answer goes out with page 7, which the
    search had found. *)
Lemma asked_while_model_is_down :
  fst (Answer.getAnswer verbatim verbatim modelDown "How to wash hands?" "s-4"
                        emptyStore) =
    Returned (Response.mk "m-4" Answer.errorAnswer [7] None) /\
  chats (snd (Answer.getAnswer verbatim verbatim modelDown "How to wash hands?"
                               "s-4" emptyStore)) =
    [Chat.mk "s-4" "m-4" "how to wash hands?" Answer.errorAnswer [7] None
             false 400].
Proof.
  exact (generation_failure_answers_error verbatim verbatim modelDown
           "How to wash hands?" "s-4" emptyStore [7] "H"%char
           "and hygiene comes first."
           eq_refl eq_refl eq_refl eq_refl eq_refl eq_refl eq_refl).
Defined.

Lemma firstTurn_stored : In firstTurn (chats afterFirstAsk).
Proof. vm_compute. left. reflexivity. Qed.

Lemma first_answer_holds_no_failure_phrase :
  Answer.isErrorResponse (Chat.answer firstTurn) = false /\
  forall phrase,
    In phrase Answer.errorPatterns ->
    ~ Answer.containsIgnoringCase (Chat.answer firstTurn) phrase.
Proof.
  exact (successful_turns_hold_no_failure_phrase verbatim verbatim
           (chats afterFirstAsk) firstTurn afterFirstAsk_reachable
           firstTurn_stored eq_refl).
Defined.

Lemma first_answer_pages_ascending :
  StronglySorted Z.lt (Chat.pageNumbers firstTurn) /\
  Forall (fun page => 0 < page) (Chat.pageNumbers firstTurn).
Proof.
  exact (stored_pageNumbers_ascending_positive verbatim verbatim
           (chats afterFirstAsk) firstTurn afterFirstAsk_reachable
           firstTurn_stored).
Defined.

Lemma first_answer_replayed_in_capitals :
  let w1 := snd (Answer.getAnswer verbatim verbatim firstAsk "What is JCI?"
                                  "s-1" emptyStore) in
  fst (Answer.getAnswer verbatim verbatim secondAsk "  WHAT is JCI? " "s-2" w1) =
    Returned (Response.mk "m-2" "JCI is the Joint Commission International."
                          [1; 2] (Some true)) /\
  trace (snd (Answer.getAnswer verbatim verbatim secondAsk "  WHAT is JCI? "
                               "s-2" w1)) = trace w1.
Proof.
  refine (answered_question_is_replayed verbatim verbatim firstAsk secondAsk
            "What is JCI?" "  WHAT is JCI? " "s-1" "s-2" emptyStore
            [1; 2] "J"%char _ "JCI is the Joint Commission International."
            _ _ _ _ _ _ _ _ _ _ _ _).
  - reflexivity.
  - reflexivity.
  - reflexivity.
  - reflexivity.
  - vm_compute. reflexivity.
  - reflexivity.
  - reflexivity.
  - vm_compute. reflexivity.
  - reflexivity.
  - reflexivity.
  - reflexivity.
  - vm_compute. reflexivity.
Defined.

Lemma heading_on_medication_errors_flagged :
  Answer.isErrorResponse
    ("Overview. " ++ "## ERROR" ++ "S IN MEDICATION are reported within a day.")
  = true.
Proof.
  apply (answer_mentioning_failure_phrase_is_flagged "## Error").
  - right. left. reflexivity.
  - reflexivity.
Defined.

End WalkthroughRuns.
